(** * Heimdall: session registration, invalidation and the in-memory backends

    A shallow embedding of the Go packages [heimdall] and [heimdall/store]:
    the distance policy, the configuration defaults, the session manager and
    the reference in-memory session store and invalidation cache, followed by
    the properties of the design document that were checked against them.

    Conventions of the embedding.
    - [float64] is IEEE 754 binary64, as the executable [spec_float] model of
      the standard library at precision 53 and maximal exponent 1024.
    - [time.Time] is an integer count of nanoseconds, [time.Duration] a 64-bit
      count of nanoseconds whose arithmetic wraps.
    - A Go pointer to a record that is never written after its creation is the
      record itself; a nil pointer or nil interface is [None].
    - Mutable backend objects live in a world [W]; an interface value is the
      record of its methods acting on that world, so two interface values may
      denote the same object.
    - A call either returns or panics ([outcome]). *)

From Stdlib Require Import ZArith Bool.
From Stdlib Require Import Floats.SpecFloat.
From stdpp Require Import base option list sorting gmap strings.

Set Default Proof Using "Type".

(* ===================================================================== *)
(** * Part I: definitions                                                 *)
(* ===================================================================== *)

(** ** float64 *)

Module Float64.

Definition float64 : Type := spec_float.

Definition prec : Z := 53.
Definition emax : Z := 1024.

(** Conversion of an integer constant (exact below 2^53). *)
Definition of_Z (z : Z) : float64 := binary_normalize prec emax z 0 false.

Definition add : float64 -> float64 -> float64 := SFadd prec emax.
Definition sub : float64 -> float64 -> float64 := SFsub prec emax.
Definition mul : float64 -> float64 -> float64 := SFmul prec emax.
Definition div : float64 -> float64 -> float64 := SFdiv prec emax.
Definition sqrt : float64 -> float64 := SFsqrt prec emax.

(** Go's [==], [<], [<=] and [>] on float64. *)
Definition eqb : float64 -> float64 -> bool := SFeqb.
Definition ltb : float64 -> float64 -> bool := SFltb.
Definition leb : float64 -> float64 -> bool := SFleb.
Definition gtb (x y : float64) : bool := SFltb y x.

(** A decimal literal [m / 10^k] with [m] and [10^k] below 2^53: the
    correctly rounded quotient is the float64 nearest to the literal. *)
Definition dec (m : Z) (k : Z) : float64 := div (of_Z m) (of_Z (10 ^ k)).

Definition zero : float64 := S754_zero false.

(** [int64(f)] for a finite [f] in range: truncation toward zero. *)
Definition to_int64 (f : float64) : Z :=
  match f with
  | S754_finite s m e =>
      let a := if (0 <=? e)%Z then (Z.pos m * 2 ^ e)%Z
               else (Z.pos m / 2 ^ (- e))%Z in
      if s then (- a)%Z else a
  | _ => 0%Z
  end.

(** The functions of Go's [math] package that the distance policy calls.
    They are not part of the repository and stay abstract. *)
Class Math := {
  math_Sin : float64 -> float64;
  math_Cos : float64 -> float64;
  math_Atan2 : float64 -> float64 -> float64
}.

(** [math.Pi] as a float64: 0x1.921FB54442D18p+1. *)
Definition math_Pi : float64 := S754_finite false 7074237752028440 (-51).

End Float64.
Export Float64.

(** ** time *)

Module GoTime.

Definition Time : Type := Z.
Definition Duration : Type := Z.

(** 64-bit two's complement wrap-around. *)
Definition wrap64 (z : Z) : Z :=
  ((z + 2 ^ 63) mod 2 ^ 64 - 2 ^ 63)%Z.

Definition Nanosecond : Duration := 1%Z.
Definition Second : Duration := 1000000000%Z.
Definition Hour : Duration := (3600 * Second)%Z.

Definition dmul (a b : Duration) : Duration := wrap64 (a * b).

Definition Add (t : Time) (d : Duration) : Time := (t + d)%Z.
Definition Before (t u : Time) : bool := (t <? u)%Z.
Definition After (t u : Time) : bool := (u <? t)%Z.

(** [Duration.Seconds]: [float64(d / Second) + float64(d % Second) / 1e9]. *)
Definition Seconds (d : Duration) : float64 :=
  let sec := Z.quot d Second in
  let nsec := Z.rem d Second in
  Float64.add (Float64.of_Z sec)
              (Float64.div (Float64.of_Z nsec) (Float64.of_Z 1000000000)).

End GoTime.
Export GoTime.

(** ** errors, panics and the world-passing monad *)

(** [errors.New(msg)], [fmt.Errorf(prefix + "%w", cause)] and
    [fmt.Errorf(prefix + "%v", errs)]. *)
#[warnings="-register-all"]
Inductive error : Type :=
  | errors_New (msg : string)
  | fmt_Errorf_w (prefix : string) (cause : error)
  | fmt_Errorf_v (prefix : string) (errs : list error).

Inductive outcome (A : Type) : Type :=
  | Returns (a : A)
  | Panics (msg : string).
Arguments Returns {A} a.
Arguments Panics {A} msg.

Definition nil_dereference : string :=
  "runtime error: invalid memory address or nil pointer dereference".
Definition close_of_closed_channel : string := "close of closed channel".

Definition Go (W A : Type) : Type := W -> outcome (A * W).

Definition ret {W A} (a : A) : Go W A := fun w => Returns (a, w).

Definition bind {W A B} (m : Go W A) (k : A -> Go W B) : Go W B :=
  fun w => match m w with
           | Returns (a, w') => k a w'
           | Panics msg => Panics msg
           end.

Definition panic {W A} (msg : string) : Go W A := fun _ => Panics msg.

(** A call that only reads the world. *)
Definition query {W A} (q : W -> outcome A) : Go W A :=
  fun w => match q w with
           | Returns a => Returns (a, w)
           | Panics msg => Panics msg
           end.

Notation "'let*' x := m 'in' k" := (bind m (fun x => k))
  (at level 10, x name, m at level 100, k at level 200, only parsing).

(** [time.Now()] reads the clock of the world. *)
Class Clock (W : Type) := { time_Now : W -> Time }.

Definition now {W} {C : Clock W} : Go W Time := fun w => Returns (time_Now w, w).

(** ** package store *)

Module store.

(** [store.Session]: the stored form of a session. *)
Record Session : Type := {
  SessionID : string;
  UserID : string;
  DeviceIP : string;
  DeviceUA : string;
  Browser : string;
  OS : string;
  DeviceType : string;
  LocCity : string;
  LocCountry : string;
  LocLat : float64;
  LocLng : float64;
  TTLSeconds : Z;
  CreatedAt : Time
}.

(** [CreatedAt.Add(time.Duration(TTLSeconds) * time.Second)]. *)
Definition ExpiresAt (s : Session) : Time :=
  Add (CreatedAt s) (dmul (TTLSeconds s) Second).

Definition IsExpired (now : Time) (s : Session) : bool :=
  After now (ExpiresAt s).

(** *** The two interfaces *)

Module SessionStore.
Record t {W : Type} : Type := {
  Save : Session -> Go W (option error);
  Delete : string -> Go W (option error);
  GetActiveByUser : string -> W -> outcome (list Session * option error);
  Close : Go W (option error)
}.
Arguments t W : clear implicits.
End SessionStore.

Module InvalidationCache.
Record t {W : Type} : Type := {
  Set_ : string -> Duration -> Go W (option error);
  Exists : string -> W -> outcome (bool * option error);
  Close : Go W (option error)
}.
Arguments t W : clear implicits.
End InvalidationCache.

(** *** MemoryCache *)

Module MemoryCache.

(** [entries]: sessionID -> expiresAt. [stopCleanup] is [true] once the
    channel has been closed. The mutex makes every method atomic, so a
    method is a function on the state. *)
Record t : Type := {
  entries : gmap string Time;
  stopCleanup : bool
}.

Definition NewMemoryCache : t :=
  {| entries := ∅; stopCleanup := false |}.

Definition Set_ (sessionID : string) (ttl : Duration) (now : Time) (c : t)
  : t * option error :=
  ({| entries := <[sessionID := Add now ttl]> (entries c);
      stopCleanup := stopCleanup c |}, None).

Definition Exists (sessionID : string) (c : t) : bool * option error :=
  match entries c !! sessionID with
  | None => (false, None)
  | Some _ => (true, None)
  end.

Definition Close (c : t) : outcome (t * option error) :=
  if stopCleanup c then Panics close_of_closed_channel
  else Returns ({| entries := entries c; stopCleanup := true |}, None).

(** [cleanup]: delete every entry with [now.After(expiresAt)]. *)
Definition cleanup (now : Time) (c : t) : t :=
  {| entries := filter (λ kv, ¬ After now kv.2) (entries c);
     stopCleanup := stopCleanup c |}.

(** One firing of the ticker in [cleanupLoop] (every 48 hours); the
    goroutine has returned once [stopCleanup] is closed. *)
Definition cleanupInterval : Duration := (48 * Hour)%Z.

Definition cleanupLoop_tick (now : Time) (c : t) : t :=
  if stopCleanup c then c else cleanup now c.

End MemoryCache.

(** *** MemorySessionStore *)

Module MemorySessionStore.

(** [sessions]: sessionID -> Session; [byUser]: userID -> set of
    sessionIDs (a Go [map[string]bool] whose values are all [true]). *)
Record t : Type := {
  sessions : gmap string Session;
  byUser : gmap string (gset string)
}.

Definition NewMemorySessionStore : t :=
  {| sessions := ∅; byUser := ∅ |}.

Definition Save (session : Session) (s : t) : t * option error :=
  let sessions' := <[SessionID session := session]> (sessions s) in
  let byUser1 :=
    match byUser s !! UserID session with
    | None => <[UserID session := ∅]> (byUser s)
    | Some _ => byUser s
    end in
  let byUser2 :=
    match byUser1 !! UserID session with
    | Some ids => <[UserID session := {[SessionID session]} ∪ ids]> byUser1
    | None => byUser1
    end in
  ({| sessions := sessions'; byUser := byUser2 |}, None).

Definition Delete (sessionID : string) (s : t) : t * option error :=
  match sessions s !! sessionID with
  | None => (s, None)
  | Some session =>
      let byUser' :=
        match byUser s !! UserID session with
        | Some userSessions =>
            let userSessions' := userSessions ∖ {[sessionID]} in
            if decide (size userSessions' = 0)
            then delete (UserID session) (byUser s)
            else <[UserID session := userSessions']> (byUser s)
        | None => byUser s
        end in
      ({| sessions := delete sessionID (sessions s); byUser := byUser' |},
       None)
  end.

(** The loop [for sessionID := range sessionIDs] over the keys in the
    order [ids]. *)
Definition collectActive (s : t) (now : Time) (ids : list string)
  : list Session :=
  foldl (λ active sessionID,
           match sessions s !! sessionID with
           | Some session =>
               if Before now (ExpiresAt session)
               then active ++ [session] else active
           | None => active
           end) [] ids.

(** [if active[j].CreatedAt.After(active[i].CreatedAt) { swap }]. *)
Definition swapIfNewer (i j : nat) (active : list Session)
  : list Session :=
  match active !! i, active !! j with
  | Some ai, Some aj =>
      if After (CreatedAt aj) (CreatedAt ai)
      then <[i := aj]> (<[j := ai]> active)
      else active
  | _, _ => active
  end.

(** [for j := i + 1; j < len(active); j++]. *)
Definition sortInner (i : nat) (active : list Session) : list Session :=
  foldl (λ a j, swapIfNewer i j a) active
        (seq (i + 1) (length active - (i + 1))).

(** [for i := 0; i < len(active)-1; i++]. *)
Definition sortByCreatedAtDesc (active : list Session) : list Session :=
  foldl (λ a i, sortInner i a) active (seq 0 (length active - 1)).

(** [GetActiveByUser] when the range loop visits the keys in the order
    [order]; Go leaves that order unspecified. *)
Definition GetActiveByUser_in_order
    (order : gset string -> list string)
    (userID : string) (now : Time) (s : t)
  : list Session * option error :=
  match byUser s !! userID with
  | None => ([], None)
  | Some sessionIDs =>
      (sortByCreatedAtDesc (collectActive s now (order sessionIDs)), None)
  end.

Definition GetActiveByUser : string -> Time -> t
  -> list Session * option error :=
  GetActiveByUser_in_order elements.

Definition Close (s : t) : t * option error := (s, None).

End MemorySessionStore.

End store.

(** ** package heimdall *)

Module heimdall.

(** Field and type names are those of the source; where two of them would
    clash in one module the field carries a mark: [DeviceInfo_IP] is
    [DeviceInfo.IP], [Session_] and [IsNewLocation_] are the fields [Session]
    and [IsNewLocation] of [RegisterResult], [Set_] is the method [Set]. *)
Record DeviceInfo : Type := {
  DeviceInfo_IP : string;
  UserAgent : string;
  Browser : string;
  OS : string;
  DeviceType : string
}.

Record LocationInfo : Type := {
  IP : string;
  City : string;
  Country : string;
  Latitude : float64;
  Longitude : float64
}.

Record Session : Type := {
  SessionID : string;
  UserID : string;
  Device : DeviceInfo;
  Location : LocationInfo;
  CreatedAt : Time;
  TTLSeconds : Z
}.

Record RegisterResult : Type := {
  Session_ : option Session;
  IsNewLocation_ : bool;
  PreviousLocation : option LocationInfo;
  ActiveSessions : list Session;
  LimitExceeded : bool
}.

(** *** Distance policy *)

Section Distance.
Context {M : Math}.

Definition earthRadiusKM : float64 := Float64.of_Z 6371.

Definition HaversineDistance (lat1 lng1 lat2 lng2 : float64) : float64 :=
  let c180 := Float64.of_Z 180 in
  let c2 := Float64.of_Z 2 in
  let lat1Rad := Float64.div (Float64.mul lat1 math_Pi) c180 in
  let lat2Rad := Float64.div (Float64.mul lat2 math_Pi) c180 in
  let dLat := Float64.div (Float64.mul (Float64.sub lat2 lat1) math_Pi) c180 in
  let dLng := Float64.div (Float64.mul (Float64.sub lng2 lng1) math_Pi) c180 in
  let a :=
    Float64.add
      (Float64.mul (math_Sin (Float64.div dLat c2))
                   (math_Sin (Float64.div dLat c2)))
      (Float64.mul
         (Float64.mul
            (Float64.mul (math_Cos lat1Rad) (math_Cos lat2Rad))
            (math_Sin (Float64.div dLng c2)))
         (math_Sin (Float64.div dLng c2))) in
  let c :=
    Float64.mul c2
      (math_Atan2 (Float64.sqrt a)
                  (Float64.sqrt (Float64.sub (Float64.of_Z 1) a))) in
  Float64.mul earthRadiusKM c.

Definition IsNewLocation (prev curr : LocationInfo)
    (thresholdKM : float64) : bool :=
  if Float64.eqb (Latitude prev) Float64.zero
     && Float64.eqb (Longitude prev) Float64.zero
  then negb (String.eqb (City prev) (City curr))
       || negb (String.eqb (Country prev) (Country curr))
  else if Float64.eqb (Latitude curr) Float64.zero
          && Float64.eqb (Longitude curr) Float64.zero
  then negb (String.eqb (City prev) (City curr))
       || negb (String.eqb (Country prev) (Country curr))
  else
    let distance :=
      HaversineDistance (Latitude prev) (Longitude prev)
                        (Latitude curr) (Longitude curr) in
    Float64.gtb distance thresholdKM.

End Distance.

(** *** Errors of the package *)

Definition ErrGeoIPDatabaseNotConfigured : error :=
  errors_New "heimdall: GeoIP database path not configured".

(** *** GeoIP reader (only what [New] and [Close] use) *)

Record geoip2_Reader {W : Type} : Type := {
  geoip2_Close : Go W (option error)
}.
Arguments geoip2_Reader W : clear implicits.

Record GeoIPReader {W : Type} : Type := {
  db : option (geoip2_Reader W);
  path : string
}.
Arguments GeoIPReader W : clear implicits.

(** *** Configuration *)

Record Config {W : Type} : Type := {
  SessionTTL : Duration;
  InvalidationTTL : Duration;
  GeoIPDatabasePath : string;
  NewLocationThresholdKM : float64;
  SessionStore : option (store.SessionStore.t W);
  InvalidationCache : option (store.InvalidationCache.t W);
  DatabasePath : string
}.
Arguments Config W : clear implicits.

Record Heimdall {W : Type} : Type := {
  config : Config W;
  sessions : option (store.SessionStore.t W);
  invalidated : option (store.InvalidationCache.t W);
  geoip : option (GeoIPReader W)
}.
Arguments Heimdall W : clear implicits.

(** The constructors of the packages outside this embedding: the SQLite
    driver behind [store.NewSQLite], whose one object serves as session
    store and as invalidation cache, and [geoip2.Open]. *)
Class Drivers (W : Type) := {
  store_NewSQLite :
    string -> Go W (option (store.SessionStore.t W
                            * store.InvalidationCache.t W)
                    * option error);
  geoip2_Open : string -> Go W (option (geoip2_Reader W) * option error)
}.

Section Manager.
Context {W : Type} {M : Math} {C : Clock W} {D : Drivers W}.

Definition DefaultConfig : Config W :=
  {| SessionTTL := (24 * Hour)%Z;
     InvalidationTTL := (24 * Hour)%Z;
     GeoIPDatabasePath := "";
     NewLocationThresholdKM := Float64.of_Z 100;
     SessionStore := None;
     InvalidationCache := None;
     DatabasePath := "heimdall.db" |}.

Definition set_SessionTTL (v : Duration) (c : Config W) : Config W :=
  {| SessionTTL := v;
     InvalidationTTL := InvalidationTTL c;
     GeoIPDatabasePath := GeoIPDatabasePath c;
     NewLocationThresholdKM := NewLocationThresholdKM c;
     SessionStore := SessionStore c;
     InvalidationCache := InvalidationCache c;
     DatabasePath := DatabasePath c |}.

Definition set_InvalidationTTL (v : Duration) (c : Config W) : Config W :=
  {| SessionTTL := SessionTTL c;
     InvalidationTTL := v;
     GeoIPDatabasePath := GeoIPDatabasePath c;
     NewLocationThresholdKM := NewLocationThresholdKM c;
     SessionStore := SessionStore c;
     InvalidationCache := InvalidationCache c;
     DatabasePath := DatabasePath c |}.

Definition set_NewLocationThresholdKM (v : float64) (c : Config W)
  : Config W :=
  {| SessionTTL := SessionTTL c;
     InvalidationTTL := InvalidationTTL c;
     GeoIPDatabasePath := GeoIPDatabasePath c;
     NewLocationThresholdKM := v;
     SessionStore := SessionStore c;
     InvalidationCache := InvalidationCache c;
     DatabasePath := DatabasePath c |}.

Definition set_DatabasePath (v : string) (c : Config W) : Config W :=
  {| SessionTTL := SessionTTL c;
     InvalidationTTL := InvalidationTTL c;
     GeoIPDatabasePath := GeoIPDatabasePath c;
     NewLocationThresholdKM := NewLocationThresholdKM c;
     SessionStore := SessionStore c;
     InvalidationCache := InvalidationCache c;
     DatabasePath := v |}.

Definition applyDefaults (c : Config W) : Config W :=
  let defaults := DefaultConfig in
  let c := if (SessionTTL c <=? 0)%Z
           then set_SessionTTL (SessionTTL defaults) c else c in
  let c := if (InvalidationTTL c <=? 0)%Z
           then set_InvalidationTTL (SessionTTL defaults) c else c in
  let c := if Float64.leb (NewLocationThresholdKM c) Float64.zero
           then set_NewLocationThresholdKM
                  (NewLocationThresholdKM defaults) c
           else c in
  let c := if String.eqb (DatabasePath c) ""
           then set_DatabasePath (DatabasePath defaults) c else c in
  c.

Definition NewGeoIPReader (dbPath : string)
  : Go W (option (GeoIPReader W) * option error) :=
  if String.eqb dbPath ""
  then ret (None, Some ErrGeoIPDatabaseNotConfigured)
  else
    let* r := geoip2_Open dbPath in
    match r with
    | (_, Some err) =>
        ret (None, Some (fmt_Errorf_w "geoip: failed to open database: " err))
    | (None, None) => panic nil_dereference
    | (Some d, None) => ret (Some {| db := Some d; path := dbPath |}, None)
    end.

Definition GeoIPReader_Close (r : option (GeoIPReader W))
  : Go W (option error) :=
  match r with
  | None => ret None
  | Some r =>
      match db r with
      | None => ret None
      | Some d => geoip2_Close d
      end
  end.

(** [New]. A [store.NewSQLite] that returns neither a store nor an error
    leaves both backends unset. *)
Definition New (cfg : Config W)
  : Go W (option (Heimdall W) * option error) :=
  let cfg := applyDefaults cfg in
  let* backends :=
    match SessionStore cfg with
    | Some st => ret (inl (Some st, None))
    | None =>
        let* r := store_NewSQLite (DatabasePath cfg) in
        match r with
        | (_, Some err) =>
            ret (inr (fmt_Errorf_w
                        "heimdall: failed to initialize SQLite store: " err))
        | (Some (st, ca), None) => ret (inl (Some st, Some ca))
        | (None, None) => ret (inl (None, None))
        end
    end in
  match backends with
  | inr err => ret (None, Some err)
  | inl (h_sessions, h_invalidated) =>
      let h_invalidated :=
        match InvalidationCache cfg with
        | Some ca => Some ca
        | None => h_invalidated
        end in
      let* reader :=
        if negb (String.eqb (GeoIPDatabasePath cfg) "")
        then
          let* g := NewGeoIPReader (GeoIPDatabasePath cfg) in
          match g with
          | (_, Some err) =>
              ret (inr (fmt_Errorf_w
                          "heimdall: failed to initialize GeoIP: " err))
          | (g, None) => ret (inl g)
          end
        else ret (inl None) in
      match reader with
      | inr err => ret (None, Some err)
      | inl h_geoip =>
          ret (Some {| config := cfg;
                       sessions := h_sessions;
                       invalidated := h_invalidated;
                       geoip := h_geoip |}, None)
      end
  end.

Definition append_err (errs : list error) (err : option error)
  : list error :=
  match err with
  | Some e => errs ++ [e]
  | None => errs
  end.

Definition Close (h : Heimdall W) : Go W (option error) :=
  let errs := [] in
  let* errs :=
    match sessions h with
    | Some st =>
        let* err := store.SessionStore.Close st in ret (append_err errs err)
    | None => ret errs
    end in
  let* errs :=
    match invalidated h with
    | Some ca =>
        let* err := store.InvalidationCache.Close ca in
        ret (append_err errs err)
    | None => ret errs
    end in
  let* errs :=
    match geoip h with
    | Some g =>
        let* err := GeoIPReader_Close (Some g) in ret (append_err errs err)
    | None => ret errs
    end in
  if (0 <? length errs)%nat
  then ret (Some (fmt_Errorf_v "heimdall: errors during close: " errs))
  else ret None.

Definition storeToSession (s : store.Session) : Session :=
  {| SessionID := store.SessionID s;
     UserID := store.UserID s;
     Device := {| DeviceInfo_IP := store.DeviceIP s;
                  UserAgent := store.DeviceUA s;
                  Browser := store.Browser s;
                  OS := store.OS s;
                  DeviceType := store.DeviceType s |};
     Location := {| IP := store.DeviceIP s;
                    City := store.LocCity s;
                    Country := store.LocCountry s;
                    Latitude := store.LocLat s;
                    Longitude := store.LocLng s |};
     CreatedAt := store.CreatedAt s;
     TTLSeconds := store.TTLSeconds s |}.

(** The location of the most recent stored session, as [RegisterSession]
    rebuilds it. *)
Definition prevLocationOf (latestSession : store.Session) : LocationInfo :=
  {| IP := store.DeviceIP latestSession;
     City := store.LocCity latestSession;
     Country := store.LocCountry latestSession;
     Latitude := store.LocLat latestSession;
     Longitude := store.LocLng latestSession |}.

Definition newStoreSession (h : Heimdall W) (userID sessionID : string)
    (device : DeviceInfo) (location : LocationInfo) (now : Time)
  : store.Session :=
  {| store.SessionID := sessionID;
     store.UserID := userID;
     store.DeviceIP := DeviceInfo_IP device;
     store.DeviceUA := UserAgent device;
     store.Browser := Browser device;
     store.OS := OS device;
     store.DeviceType := DeviceType device;
     store.LocCity := City location;
     store.LocCountry := Country location;
     store.LocLat := Latitude location;
     store.LocLng := Longitude location;
     store.TTLSeconds :=
       Float64.to_int64 (Seconds (SessionTTL (config h)));
     store.CreatedAt := now |}.

Definition newSession (h : Heimdall W) (userID sessionID : string)
    (device : DeviceInfo) (location : LocationInfo) (now : Time)
  : Session :=
  {| SessionID := sessionID;
     UserID := userID;
     Device := device;
     Location := location;
     CreatedAt := now;
     TTLSeconds := Float64.to_int64 (Seconds (SessionTTL (config h))) |}.

Definition RegisterSession (h : Heimdall W) (userID sessionID : string)
    (device : DeviceInfo) (location : LocationInfo) (concurrentLimit : Z)
  : Go W (option RegisterResult * option error) :=
  match sessions h with
  | None => panic nil_dereference
  | Some st =>
      let* r := query (store.SessionStore.GetActiveByUser st userID) in
      match r with
      | (_, Some err) =>
          ret (None, Some (fmt_Errorf_w
                             "heimdall: failed to get active sessions: " err))
      | (activeSessions, None) =>
          let result_ActiveSessions := map storeToSession activeSessions in
          if (0 <? concurrentLimit)%Z
             && (concurrentLimit <=? Z.of_nat (length activeSessions))%Z
          then
            ret (Some {| Session_ := None;
                         IsNewLocation_ := false;
                         PreviousLocation := None;
                         ActiveSessions := result_ActiveSessions;
                         LimitExceeded := true |}, None)
          else
            let verdict :=
              match activeSessions with
              | latestSession :: _ =>
                  let prevLocation := prevLocationOf latestSession in
                  if IsNewLocation prevLocation location
                       (NewLocationThresholdKM (config h))
                  then (true, Some prevLocation)
                  else (false, None)
              | [] => (false, None)
              end in
            let* now := now in
            let storeSession :=
              newStoreSession h userID sessionID device location now in
            let* err := store.SessionStore.Save st storeSession in
            match err with
            | Some err =>
                ret (None, Some (fmt_Errorf_w
                                   "heimdall: failed to save session: " err))
            | None =>
                let session :=
                  newSession h userID sessionID device location now in
                ret (Some {| Session_ := Some session;
                             IsNewLocation_ := verdict.1;
                             PreviousLocation := verdict.2;
                             ActiveSessions :=
                               session :: result_ActiveSessions;
                             LimitExceeded := false |}, None)
            end
      end
  end.

Definition InvalidateSession (h : Heimdall W) (sessionID : string)
  : Go W (option error) :=
  match sessions h with
  | None => panic nil_dereference
  | Some st =>
      let* err := store.SessionStore.Delete st sessionID in
      match err with
      | Some err =>
          ret (Some (fmt_Errorf_w
                       "heimdall: failed to delete session: " err))
      | None =>
          match invalidated h with
          | None => panic nil_dereference
          | Some ca =>
              let* err :=
                store.InvalidationCache.Set_ ca sessionID
                  (InvalidationTTL (config h)) in
              match err with
              | Some err =>
                  ret (Some (fmt_Errorf_w
                               "heimdall: failed to set invalidation: " err))
              | None => ret None
              end
          end
      end
  end.

Definition IsSessionInvalidated (h : Heimdall W) (sessionID : string)
  : Go W (bool * option error) :=
  match invalidated h with
  | None => panic nil_dereference
  | Some ca => query (store.InvalidationCache.Exists ca sessionID)
  end.

Definition ListSessions (h : Heimdall W) (userID : string)
  : Go W (list Session * option error) :=
  match sessions h with
  | None => panic nil_dereference
  | Some st =>
      let* r := query (store.SessionStore.GetActiveByUser st userID) in
      match r with
      | (_, Some err) =>
          ret ([], Some (fmt_Errorf_w
                           "heimdall: failed to list sessions: " err))
      | (storeSessions, None) =>
          ret (map storeToSession storeSessions, None)
      end
  end.

End Manager.

End heimdall.

(** ** A world holding the reference in-memory backends

    One [MemorySessionStore], one [MemoryCache] and the clock; the interface
    values [sessionStore] and [invalidationCache] are the two objects seen
    through [store.SessionStore] and [store.InvalidationCache]. *)

Module inmem.

Import store.

Record World : Type := {
  the_store : MemorySessionStore.t;
  the_cache : MemoryCache.t;
  clock : Time
}.

#[global] Instance World_Clock : Clock World := {| time_Now := clock |}.

Definition initial (t0 : Time) : World :=
  {| the_store := MemorySessionStore.NewMemorySessionStore;
     the_cache := MemoryCache.NewMemoryCache;
     clock := t0 |}.

Definition on_store (f : MemorySessionStore.t -> MemorySessionStore.t * option error)
  : Go World (option error) :=
  fun w =>
    let (s', err) := f (the_store w) in
    Returns (err, {| the_store := s'; the_cache := the_cache w;
                     clock := clock w |}).

Definition on_cache (f : MemoryCache.t -> outcome (MemoryCache.t * option error))
  : Go World (option error) :=
  fun w =>
    match f (the_cache w) with
    | Returns (c', err) =>
        Returns (err, {| the_store := the_store w; the_cache := c';
                         clock := clock w |})
    | Panics msg => Panics msg
    end.

Definition sessionStore : SessionStore.t World :=
  {| SessionStore.Save session := on_store (MemorySessionStore.Save session);
     SessionStore.Delete sessionID :=
       on_store (MemorySessionStore.Delete sessionID);
     SessionStore.GetActiveByUser userID w :=
       Returns (MemorySessionStore.GetActiveByUser userID (clock w)
                  (the_store w));
     SessionStore.Close := on_store MemorySessionStore.Close |}.

Definition invalidationCache : InvalidationCache.t World :=
  {| InvalidationCache.Set_ sessionID ttl w :=
       on_cache (fun c => Returns (MemoryCache.Set_ sessionID ttl (clock w) c)) w;
     InvalidationCache.Exists sessionID w :=
       Returns (MemoryCache.Exists sessionID (the_cache w));
     InvalidationCache.Close := on_cache MemoryCache.Close |}.

(** The environment: time passes, and the ticker of [cleanupLoop] fires. *)
Definition elapse (d : Duration) (w : World) : World :=
  {| the_store := the_store w; the_cache := the_cache w;
     clock := Add (clock w) d |}.

Definition tick (w : World) : World :=
  {| the_store := the_store w;
     the_cache := MemoryCache.cleanupLoop_tick (clock w) (the_cache w);
     clock := clock w |}.

(** No SQLite file and no GeoIP database are available in this world. *)
#[global] Instance no_drivers : heimdall.Drivers World :=
  {| heimdall.store_NewSQLite _ :=
       ret (None, Some (errors_New "sqlite: failed to open database"));
     heimdall.geoip2_Open _ :=
       ret (None, Some (errors_New "open: no such file or directory")) |}.

(** Backends that fail, for the error paths of the manager. *)
Definition failingStore (e : error) : SessionStore.t World :=
  {| SessionStore.Save _ := ret (Some e);
     SessionStore.Delete _ := ret (Some e);
     SessionStore.GetActiveByUser _ _ := Returns ([], Some e);
     SessionStore.Close := ret (Some e) |}.

Definition failingCache (e : error) : InvalidationCache.t World :=
  {| InvalidationCache.Set_ _ _ := ret (Some e);
     InvalidationCache.Exists _ _ := Returns (false, Some e);
     InvalidationCache.Close := ret (Some e) |}.

(** First-order approximations of [math.Sin], [math.Cos] and [math.Atan2]
    around zero, used only to run the distance policy on points that are a
    fraction of a degree apart. *)
Definition smallAngleMath : Math :=
  {| math_Sin x := x;
     math_Cos x :=
       Float64.sub (Float64.of_Z 1)
                   (Float64.div (Float64.mul x x) (Float64.of_Z 2));
     math_Atan2 y x := Float64.div y x |}.

End inmem.

(** ** Vocabulary of the properties *)

Module props.

Import heimdall.

Section Distance.
Context {M : Math}.

(** The coordinates of a location are known when they are not both zero. *)
Definition known_coordinates (l : LocationInfo) : bool :=
  negb (Float64.eqb (Latitude l) Float64.zero
        && Float64.eqb (Longitude l) Float64.zero).

(** The haversine distance between two locations. *)
Definition distanceKM (prev curr : LocationInfo) : float64 :=
  HaversineDistance (Latitude prev) (Longitude prev)
                    (Latitude curr) (Longitude curr).

End Distance.

End props.
Export props.

(** ** Vocabulary of the manager's properties *)

Module mprops.

Import heimdall.

Section Manager.
Context {W : Type} {M : Math} {C : Clock W}.

(** The limit check of [RegisterSession]:
    [concurrentLimit > 0 && len(activeSessions) >= concurrentLimit]. *)
Definition limitReached (concurrentLimit : Z) (active : list store.Session)
  : bool :=
  (0 <? concurrentLimit)%Z && (concurrentLimit <=? Z.of_nat (length active))%Z.

(** The result of a rejected registration. *)
Definition rejected (active : list store.Session) : RegisterResult :=
  {| Session_ := None;
     IsNewLocation_ := false;
     PreviousLocation := None;
     ActiveSessions := map storeToSession active;
     LimitExceeded := true |}.

(** The result of an accepted registration with the given verdict. *)
Definition accepted (session : Session) (verdict : bool * option LocationInfo)
    (active : list store.Session) : RegisterResult :=
  {| Session_ := Some session;
     IsNewLocation_ := verdict.1;
     PreviousLocation := verdict.2;
     ActiveSessions := session :: map storeToSession active;
     LimitExceeded := false |}.

(** The new-location verdict on a list of active sessions. *)
Definition verdictOn (h : Heimdall W) (active : list store.Session)
    (location : LocationInfo) : bool * option LocationInfo :=
  match active with
  | latestSession :: _ =>
      if IsNewLocation (prevLocationOf latestSession) location
           (NewLocationThresholdKM (config h))
      then (true, Some (prevLocationOf latestSession))
      else (false, None)
  | [] => (false, None)
  end.

End Manager.

End mprops.
Export mprops.

(** ** Vocabulary of the in-memory store's properties *)

Module sprops.

Import store store.MemorySessionStore.

(** Newest first: no later position holds a session created after the one
    at an earlier position. *)
Definition newestFirst (a : list Session) : Prop :=
  forall p q x y, p < q -> a !! p = Some x -> a !! q = Some y ->
    (CreatedAt y <= CreatedAt x)%Z.

(** The first [m] positions are in place: each holds a session at least as
    new as every session after it. *)
Definition leads (m : nat) (a : list Session) : Prop :=
  forall p q x y, p < m -> p < q -> a !! p = Some x -> a !! q = Some y ->
    (CreatedAt y <= CreatedAt x)%Z.

(** What one round of the range loop in [GetActiveByUser] appends. *)
Definition activeSession (s : MemorySessionStore.t) (now : Time)
    (sessionID : string) : option Session :=
  match sessions s !! sessionID with
  | Some session =>
      if Before now (ExpiresAt session) then Some session else None
  | None => None
  end.

(** The index agrees with the sessions: every stored session is filed under
    its own ID and indexed under its own user, and every indexed ID is that
    of a stored session of that user. *)
Definition indexed (s : MemorySessionStore.t) : Prop :=
  (forall id x, sessions s !! id = Some x ->
     SessionID x = id
     /\ exists ids, byUser s !! UserID x = Some ids /\ id ∈ ids)
  /\ (forall u ids id, byUser s !! u = Some ids -> id ∈ ids ->
        exists x, sessions s !! id = Some x /\ UserID x = u).

(** The sessions the store holds for a user that have not expired, in the
    words of the store contract: stored, of that user, [now < expiresAt]. *)
Definition storedActive (userID : string) (now : Time)
    (s : MemorySessionStore.t) (x : Session) : Prop :=
  sessions s !! SessionID x = Some x
  /\ UserID x = userID
  /\ Before now (ExpiresAt x) = true.

End sprops.
Export sprops.

(** ** Concrete runs on the in-memory world *)

Module scenario.

Import store heimdall inmem.

Definition device : DeviceInfo :=
  {| DeviceInfo_IP := "8.8.8.8";
     UserAgent := "Mozilla/5.0";
     Browser := "Chrome";
     OS := "Windows";
     DeviceType := "desktop" |}.

(** New York (40.7128, -74.0060), a point 0.0001 degree north of it, and
    London (51.5074, -0.1278). *)
Definition nyc : LocationInfo :=
  {| IP := "8.8.8.8"; City := "New York"; Country := "United States";
     Latitude := Float64.dec 407128 4;
     Longitude := SFopp (Float64.dec 740060 4) |}.

Definition nycNearby : LocationInfo :=
  {| IP := "8.8.8.8"; City := "New York"; Country := "United States";
     Latitude := Float64.dec 407129 4;
     Longitude := SFopp (Float64.dec 740060 4) |}.

Definition london : LocationInfo :=
  {| IP := "1.1.1.1"; City := "London"; Country := "United Kingdom";
     Latitude := Float64.dec 515074 4;
     Longitude := SFopp (Float64.dec 1278 4) |}.

(** A configuration with the in-memory backends injected. *)
Definition configWith (sessionTTL invalidationTTL : Duration)
    (thresholdKM : float64) : Config World :=
  {| SessionTTL := sessionTTL;
     InvalidationTTL := invalidationTTL;
     GeoIPDatabasePath := "";
     NewLocationThresholdKM := thresholdKM;
     SessionStore := Some sessionStore;
     InvalidationCache := Some invalidationCache;
     DatabasePath := "" |}.

(** The manager [New] builds from such a configuration. *)
Definition managerOf (cfg : Config World) : Heimdall World :=
  {| config := applyDefaults cfg;
     sessions := Some sessionStore;
     invalidated := Some invalidationCache;
     geoip := None |}.

Definition testConfig : Config World :=
  configWith Hour (24 * Hour)%Z (Float64.of_Z 100).

Definition zeroThresholdConfig : Config World :=
  configWith Hour (24 * Hour)%Z Float64.zero.

Definition longSessionConfig : Config World :=
  configWith (48 * Hour)%Z 0%Z (Float64.of_Z 100).

(** The world a call leaves, and what it returns. *)
Definition after {A : Type} (m : Go World A) (w : World) : World :=
  match m w with
  | Returns (_, w') => w'
  | Panics _ => w
  end.

Definition returned {A : Type} (m : Go World A) (w : World) : option A :=
  match m w with
  | Returns (a, _) => Some a
  | Panics _ => None
  end.

(** User u1 registers s1 from New York at time 0 and, one second later, s2
    from the nearby point. *)
Definition w0 : World := initial 0%Z.

Definition register (M : Math) (h : Heimdall World) (userID sessionID : string)
    (location : LocationInfo) (concurrentLimit : Z) : Go World _ :=
  RegisterSession (M := M) h userID sessionID device location concurrentLimit.

Definition w1 (h : Heimdall World) : World :=
  elapse Second (after (register smallAngleMath h "u1" "s1" nyc 2) w0).

Definition w2 (h : Heimdall World) : World :=
  elapse Second (after (register smallAngleMath h "u1" "s2" nycNearby 2) (w1 h)).

Definition activeOf (userID : string) (w : World) : list store.Session :=
  (MemorySessionStore.GetActiveByUser userID (clock w) (the_store w)).1.

Definition storageUnavailable : error :=
  errors_New "storage unavailable".

(** A manager whose session store fails on every call, next to the
    in-memory invalidation cache. *)
Definition brokenStoreManager : Heimdall World :=
  {| config := applyDefaults testConfig;
     sessions := Some (failingStore storageUnavailable);
     invalidated := Some invalidationCache;
     geoip := None |}.

(** A manager whose invalidation cache fails on every call, next to the
    in-memory session store. *)
Definition brokenCacheManager : Heimdall World :=
  {| config := applyDefaults testConfig;
     sessions := Some sessionStore;
     invalidated := Some (failingCache storageUnavailable);
     geoip := None |}.

(** The result of a registration that returned one without an error. *)
Definition registered (m : Go World (option RegisterResult * option error))
    (w : World) : option RegisterResult :=
  match returned m w with
  | Some (Some r, None) => Some r
  | _ => None
  end.

(** A stored session with a one-hour TTL and no location. *)
Definition sessionOf (sessionID userID : string) (createdAt : Time)
  : store.Session :=
  {| store.SessionID := sessionID;
     store.UserID := userID;
     store.DeviceIP := "8.8.8.8";
     store.DeviceUA := "Mozilla/5.0";
     store.Browser := "Chrome";
     store.OS := "Windows";
     store.DeviceType := "desktop";
     store.LocCity := "";
     store.LocCountry := "";
     store.LocLat := Float64.zero;
     store.LocLng := Float64.zero;
     store.TTLSeconds := 3600;
     store.CreatedAt := createdAt |}.

(** [Save] calls in sequence on a fresh store. *)
Definition saved (l : list store.Session) : MemorySessionStore.t :=
  foldl (λ s session, (MemorySessionStore.Save session s).1)
        MemorySessionStore.NewMemorySessionStore l.

(** Session s1 is saved for alice and then saved again for bob. *)
Definition reassigned : MemorySessionStore.t :=
  saved [sessionOf "s1" "alice" 0%Z; sessionOf "s1" "bob" Second].

(** alice has a1 and a2; a1 is then saved again for bob. *)
Definition shared : MemorySessionStore.t :=
  saved [sessionOf "a1" "alice" (10 * Second)%Z;
         sessionOf "a2" "alice" (20 * Second)%Z;
         sessionOf "a1" "bob" (30 * Second)%Z].

(** The in-memory cache after [Set("s1", 1h)] at time 0, looked at two
    hours later; no tick of the 48-hour cleanup has happened. *)
Definition cacheWorld : World :=
  elapse (2 * Hour)%Z (after (InvalidationCache.Set_ invalidationCache "s1" Hour) w0).

(** The same world after the cleanup ticker has fired. *)
Definition sweptWorld : World := tick cacheWorld.

(** A manager on the in-memory backends, closed once. *)
Definition closedOnce : World :=
  after (heimdall.Close (managerOf testConfig)) w0.

End scenario.

(** ** The public session's expiry *)

Module public.

Import heimdall.

(** [Session.ExpiresAt] and [Session.IsExpired] of package heimdall. *)
Definition ExpiresAt (s : Session) : Time :=
  Add (CreatedAt s) (dmul (TTLSeconds s) Second).

Definition IsExpired (now : Time) (s : Session) : bool :=
  After now (ExpiresAt s).

End public.

(** ** More runs on the in-memory store *)

Module scenario_store.

Import store inmem scenario.

(** alice holds a1 (created at 10 s) and a2 (created at 20 s). *)
Definition twoSessions : MemorySessionStore.t :=
  saved [sessionOf "a1" "alice" (10 * Second)%Z;
         sessionOf "a2" "alice" (20 * Second)%Z].

(** The range loop visiting the index in the reverse of the usual order. *)
Definition reversed (ids : gset string) : list string :=
  reverse (elements ids).

End scenario_store.

(** ** Sequences of store operations *)

Module storeops.

Import store store.MemorySessionStore.

Inductive op : Type :=
  | OpSave (session : Session)
  | OpDelete (sessionID : string).

Definition apply (s : MemorySessionStore.t) (o : op) : MemorySessionStore.t :=
  match o with
  | OpSave session => (Save session s).1
  | OpDelete sessionID => (Delete sessionID s).1
  end.

Definition run (s : MemorySessionStore.t) (ops : list op)
  : MemorySessionStore.t :=
  foldl apply s ops.

(** No [Save] of the sequence stores a session under an ID that, at that
    moment, is held by a session of another user. *)
Fixpoint keepsOwners (s : MemorySessionStore.t) (ops : list op) : Prop :=
  match ops with
  | [] => True
  | o :: ops' =>
      match o with
      | OpSave session =>
          forall x, sessions s !! SessionID session = Some x ->
                    UserID x = UserID session
      | OpDelete _ => True
      end
      /\ keepsOwners (apply s o) ops'
  end.

End storeops.

(** ** Sequences of invalidations *)

Module cacheops.

Import store store.MemoryCache.

(** [Set] calls in sequence: each entry is (sessionID, ttl, time of call). *)
Definition setAll (c : MemoryCache.t)
    (calls : list (string * Duration * Time)) : MemoryCache.t :=
  foldl (λ c call, (Set_ call.1.1 call.1.2 call.2 c).1) c calls.

End cacheops.

(** ** More runs of the manager *)

Module scenario_manager.

Import store heimdall inmem scenario.

(** A configuration that injects the in-memory session store and no
    invalidation cache. *)
Definition storeOnlyConfig : Config World :=
  {| SessionTTL := Hour;
     InvalidationTTL := (24 * Hour)%Z;
     GeoIPDatabasePath := "";
     NewLocationThresholdKM := Float64.of_Z 100;
     SessionStore := Some sessionStore;
     InvalidationCache := None;
     DatabasePath := "" |}.

(** The manager [New] builds from it. *)
Definition storeOnlyManager : Heimdall World :=
  {| config := applyDefaults storeOnlyConfig;
     sessions := Some sessionStore;
     invalidated := None;
     geoip := None |}.

(** The zero-value configuration: no backend is injected. *)
Definition zeroConfig : Config World :=
  {| SessionTTL := 0%Z;
     InvalidationTTL := 0%Z;
     GeoIPDatabasePath := "";
     NewLocationThresholdKM := Float64.zero;
     SessionStore := None;
     InvalidationCache := None;
     DatabasePath := "" |}.

(** A location whose coordinates are unknown. *)
Definition paris : LocationInfo :=
  {| IP := "2.2.2.2"; City := "Paris"; Country := "France";
     Latitude := Float64.zero; Longitude := Float64.zero |}.

(** The errors an optional error contributes to a list. *)
Definition errorsOf (err : option error) : list error :=
  match err with
  | Some e => [e]
  | None => []
  end.

(** [loc] with its IP replaced. *)
Definition withIP (ip : string) (loc : LocationInfo) : LocationInfo :=
  {| IP := ip; City := City loc; Country := Country loc;
     Latitude := Latitude loc; Longitude := Longitude loc |}.

End scenario_manager.

(** ** Registrations in sequence *)

Module registrations.

Import store heimdall inmem scenario.

(** Calls of [RegisterSession] for one user, one after the other, on the
    in-memory world: each call is (sessionID, time since the previous
    call). The results are collected; a panic ends the run. *)
Fixpoint registerAll (M : Math) (h : Heimdall World) (userID : string)
    (device : DeviceInfo) (location : LocationInfo) (concurrentLimit : Z)
    (calls : list (string * Duration)) (w : World)
  : list (option RegisterResult * option error) * World :=
  match calls with
  | [] => ([], w)
  | (sessionID, d) :: calls' =>
      match RegisterSession (M := M) h userID sessionID device location
              concurrentLimit (elapse d w) with
      | Returns (r, w') =>
          let (rs, w'') :=
            registerAll M h userID device location concurrentLimit calls' w'
          in (r :: rs, w'')
      | Panics _ => ([], elapse d w)
      end
  end.

(** The time a sequence of calls takes. *)
Definition elapsed (calls : list (string * Duration)) : Duration :=
  foldr (λ call total, (call.2 + total)%Z) 0%Z calls.

(** A registration that was accepted. *)
Definition wasAccepted (r : option RegisterResult * option error) : Prop :=
  exists x, r = (Some x, None) /\ LimitExceeded x = false
            /\ is_Some (Session_ x).

(** u1 logs in as s1 and, one second later, as s2. *)
Definition twoLogins : list (string * Duration) :=
  [("s1", 0%Z); ("s2", Second)].

End registrations.

(* ===================================================================== *)
(** * Part II: properties                                                 *)
(* ===================================================================== *)

(** ** Comparisons of float64 *)

Section Float64Facts.

Lemma SFcompare_refl_not_Lt (x : float64) : SFcompare x x <> Some Lt.
Proof.
  destruct x as [s|s| |s m e]; simpl; try destruct s; try discriminate.
  - rewrite Z.compare_refl, Pos.compare_cont_refl. discriminate.
  - rewrite Z.compare_refl, Pos.compare_cont_refl. discriminate.
Qed.

Lemma ltb_irrefl (x : float64) : Float64.ltb x x = false.
Proof.
  unfold Float64.ltb, SFltb.
  pose proof (SFcompare_refl_not_Lt x) as Hx.
  destruct (SFcompare x x) as [[]|]; congruence.
Qed.

Lemma SFcompare_Eq_sym (x y : float64) :
  SFcompare x y = Some Eq -> SFcompare y x = Some Eq.
Proof.
  destruct x as [sx|sx| |sx mx ex], y as [sy|sy| |sy my ey]; simpl;
    try destruct sx; try destruct sy; try discriminate; try reflexivity.
  - destruct (ex ?= ey)%Z eqn:He; try discriminate.
    apply Z.compare_eq in He; subst ey. rewrite Z.compare_refl.
    intros Hm. f_equal.
    destruct (Pos.compare_cont Eq mx my) eqn:Hc; try discriminate.
    apply Pos.compare_eq in Hc; subst my.
    now rewrite Pos.compare_cont_refl.
  - destruct (ex ?= ey)%Z eqn:He; try discriminate.
    apply Z.compare_eq in He; subst ey. rewrite Z.compare_refl.
    intros Hm.
    destruct (Pos.compare_cont Eq mx my) eqn:Hc; try discriminate.
    apply Pos.compare_eq in Hc; subst my.
    now rewrite Pos.compare_cont_refl.
Qed.

Lemma eqb_not_gtb (d t : float64) :
  Float64.eqb d t = true -> Float64.gtb d t = false.
Proof.
  unfold Float64.eqb, Float64.gtb, SFeqb, SFltb. intros Heq.
  destruct (SFcompare d t) as [[]|] eqn:Hc; try discriminate.
  now rewrite (SFcompare_Eq_sym _ _ Hc).
Qed.

End Float64Facts.

(** ** The distance policy *)

Section DistancePolicy.
Import heimdall.
Context {M : Math}.

Lemma IsNewLocation_known (prev curr : LocationInfo) (t : float64) :
  known_coordinates prev = true ->
  known_coordinates curr = true ->
  IsNewLocation prev curr t = Float64.gtb (distanceKM prev curr) t.
Proof.
  unfold known_coordinates, IsNewLocation, distanceKM.
  intros Hp Hc.
  apply negb_true_iff in Hp. apply negb_true_iff in Hc.
  now rewrite Hp, Hc.
Qed.

Lemma IsNewLocation_unknown (prev curr : LocationInfo) (t : float64) :
  known_coordinates prev = false \/ known_coordinates curr = false ->
  IsNewLocation prev curr t
  = negb (String.eqb (City prev) (City curr))
    || negb (String.eqb (Country prev) (Country curr)).
Proof.
  unfold known_coordinates, IsNewLocation.
  intros [Hp|Hc].
  - apply negb_false_iff in Hp. now rewrite Hp.
  - apply negb_false_iff in Hc. rewrite Hc.
    destruct (Float64.eqb (Latitude prev) Float64.zero
              && Float64.eqb (Longitude prev) Float64.zero); reflexivity.
Qed.

(** C7. For locations whose coordinates are known, and for every threshold
    (in particular every threshold >= 0), [IsNewLocation] is the strict
    comparison [distance > threshold] of the haversine distance: a distance
    equal to the threshold is not flagged, a distance above it is. *)
Theorem C7_IsNewLocation_strict (prev curr : LocationInfo) (t : float64) :
  known_coordinates prev = true ->
  known_coordinates curr = true ->
  IsNewLocation prev curr t = Float64.gtb (distanceKM prev curr) t
  /\ (distanceKM prev curr = t \/ Float64.eqb (distanceKM prev curr) t = true ->
      IsNewLocation prev curr t = false)
  /\ (Float64.gtb (distanceKM prev curr) t = true ->
      IsNewLocation prev curr t = true).
Proof.
  intros Hp Hc.
  rewrite (IsNewLocation_known prev curr t Hp Hc).
  split; [reflexivity|]. split.
  - intros [Heq|Heq].
    + rewrite Heq. unfold Float64.gtb. apply ltb_irrefl.
    + now apply eqb_not_gtb.
  - trivial.
Qed.

End DistancePolicy.

(** ** The session manager over arbitrary backends *)

Section ManagerFacts.
Import heimdall.
Context {W : Type} {M : Math} {C : Clock W} {D : Drivers W}.

Ltac run_go :=
  unfold bind, query, ret, panic, now; simpl.

Lemma RegisterSession_rejected (h : Heimdall W) st userID sessionID device
    location concurrentLimit w active :
  sessions h = Some st ->
  store.SessionStore.GetActiveByUser st userID w = Returns (active, None) ->
  limitReached concurrentLimit active = true ->
  RegisterSession h userID sessionID device location concurrentLimit w
  = Returns ((Some (rejected active), None), w).
Proof.
  unfold limitReached. intros Hst Hget Hlimit.
  unfold RegisterSession. rewrite Hst. run_go. rewrite Hget.
  now rewrite Hlimit.
Qed.

Lemma RegisterSession_accepted (h : Heimdall W) st userID sessionID device
    location concurrentLimit w active :
  sessions h = Some st ->
  store.SessionStore.GetActiveByUser st userID w = Returns (active, None) ->
  limitReached concurrentLimit active = false ->
  RegisterSession h userID sessionID device location concurrentLimit w
  = match store.SessionStore.Save st
            (newStoreSession h userID sessionID device location (time_Now w)) w
    with
    | Returns (None, w') =>
        Returns ((Some (accepted
                          (newSession h userID sessionID device location
                                      (time_Now w))
                          (verdictOn h active location) active), None), w')
    | Returns (Some err, w') =>
        Returns ((None, Some (fmt_Errorf_w
                                "heimdall: failed to save session: " err)), w')
    | Panics msg => Panics msg
    end.
Proof.
  unfold limitReached. intros Hst Hget Hlimit.
  unfold RegisterSession. rewrite Hst. run_go. rewrite Hget.
  rewrite Hlimit.
  destruct (store.SessionStore.Save st _ w) as [[[err|] w']|msg];
    reflexivity.
Qed.

Lemma limitReached_zero (active : list store.Session) :
  limitReached 0 active = false.
Proof. reflexivity. Qed.

Lemma limitReached_true (concurrentLimit : Z) (active : list store.Session) :
  (0 < concurrentLimit)%Z ->
  (concurrentLimit <= Z.of_nat (length active))%Z ->
  limitReached concurrentLimit active = true.
Proof.
  intros H0 Hlen. unfold limitReached.
  apply andb_true_iff. split; [now apply Z.ltb_lt | now apply Z.leb_le].
Qed.

(** C1. When the store reports [active] and [concurrentLimit > 0] with
    [len(active) >= concurrentLimit], [RegisterSession] returns
    [LimitExceeded = true], [Session = nil] and the active list in public
    form, and leaves the world as it was: nothing is saved. With
    [concurrentLimit = 0] the check is skipped whatever the length of
    [active]: the new session is handed to [store.Save] and, when that
    succeeds, is returned as accepted. *)
Theorem C1_limit_check (h : Heimdall W) st userID sessionID device location
    concurrentLimit w active :
  sessions h = Some st ->
  store.SessionStore.GetActiveByUser st userID w = Returns (active, None) ->
  ((0 < concurrentLimit)%Z ->
   (concurrentLimit <= Z.of_nat (length active))%Z ->
   exists r,
     RegisterSession h userID sessionID device location concurrentLimit w
     = Returns ((Some r, None), w)
     /\ LimitExceeded r = true
     /\ Session_ r = None
     /\ ActiveSessions r = map storeToSession active)
  /\ (concurrentLimit = 0%Z ->
      let session := newSession h userID sessionID device location (time_Now w) in
      match store.SessionStore.Save st
              (newStoreSession h userID sessionID device location (time_Now w)) w
      with
      | Returns (None, w') =>
          exists r,
            RegisterSession h userID sessionID device location concurrentLimit w
            = Returns ((Some r, None), w')
            /\ LimitExceeded r = false
            /\ Session_ r = Some session
            /\ ActiveSessions r = session :: map storeToSession active
      | Returns (Some err, w') =>
          RegisterSession h userID sessionID device location concurrentLimit w
          = Returns ((None, Some (fmt_Errorf_w
                                    "heimdall: failed to save session: " err)),
                     w')
      | Panics msg =>
          RegisterSession h userID sessionID device location concurrentLimit w
          = Panics msg
      end).
Proof.
  intros Hst Hget. split.
  - intros H0 Hlen. exists (rejected active). split; [|by repeat split].
    apply (RegisterSession_rejected h st); auto using limitReached_true.
  - intros ->. simpl.
    rewrite (RegisterSession_accepted h st _ _ _ _ _ _ active Hst Hget
               (limitReached_zero active)).
    destruct (store.SessionStore.Save st _ w) as [[[err|] w']|msg];
      try reflexivity.
    eexists. split; [reflexivity|]. by repeat split.
Qed.

(** C4. [InvalidateSession] calls [store.Delete] first. If the delete
    fails, its error is returned (wrapped) and the world is the one the
    delete left: [invalidationCache.Set] has not run. If the delete succeeds,
    [Set] runs on the world the delete left, with the configured invalidation
    TTL, and its error, if any, is returned (wrapped). *)
Theorem C4_InvalidateSession_order (h : Heimdall W) st ca sessionID w :
  sessions h = Some st ->
  invalidated h = Some ca ->
  match store.SessionStore.Delete st sessionID w with
  | Returns (Some err, w1) =>
      InvalidateSession h sessionID w
      = Returns (Some (fmt_Errorf_w "heimdall: failed to delete session: " err),
                 w1)
  | Returns (None, w1) =>
      match store.InvalidationCache.Set_ ca sessionID
              (InvalidationTTL (config h)) w1 with
      | Returns (Some err, w2) =>
          InvalidateSession h sessionID w
          = Returns (Some (fmt_Errorf_w
                             "heimdall: failed to set invalidation: " err), w2)
      | Returns (None, w2) =>
          InvalidateSession h sessionID w = Returns (None, w2)
      | Panics msg => InvalidateSession h sessionID w = Panics msg
      end
  | Panics msg => InvalidateSession h sessionID w = Panics msg
  end.
Proof.
  intros Hst Hca. unfold InvalidateSession. rewrite Hst, Hca. run_go.
  destruct (store.SessionStore.Delete st sessionID w) as [[[err|] w1]|msg];
    try reflexivity.
  destruct (store.InvalidationCache.Set_ ca sessionID _ w1)
    as [[[err|] w2]|msg]; reflexivity.
Qed.

Lemma prevLocationOf_public (s : store.Session) :
  prevLocationOf s = Location (storeToSession s).
Proof. reflexivity. Qed.

(** C5. In an accepted registration the new-location verdict is
    [IsNewLocation], at the configured threshold, of the location of the
    first active session and the current location; nothing else of the
    active list enters it. When flagged, [PreviousLocation] is that session's
    location, otherwise it is absent; on an empty active list the verdict
    is [false] and [PreviousLocation] is absent. *)
Theorem C5_verdict_from_latest (h : Heimdall W) st userID sessionID device
    location concurrentLimit w active w' :
  sessions h = Some st ->
  store.SessionStore.GetActiveByUser st userID w = Returns (active, None) ->
  limitReached concurrentLimit active = false ->
  store.SessionStore.Save st
    (newStoreSession h userID sessionID device location (time_Now w)) w
  = Returns (None, w') ->
  exists r,
    RegisterSession h userID sessionID device location concurrentLimit w
    = Returns ((Some r, None), w')
    /\ match active with
       | latestSession :: _ =>
           let prev := Location (storeToSession latestSession) in
           IsNewLocation_ r
           = IsNewLocation prev location (NewLocationThresholdKM (config h))
           /\ PreviousLocation r
              = (if IsNewLocation_ r then Some prev else None)
       | [] => IsNewLocation_ r = false /\ PreviousLocation r = None
       end.
Proof.
  intros Hst Hget Hlimit Hsave.
  rewrite (RegisterSession_accepted h st _ _ _ _ _ _ active Hst Hget Hlimit).
  rewrite Hsave. eexists. split; [reflexivity|].
  destruct active as [|latestSession rest]; [by split|].
  unfold accepted, verdictOn. rewrite prevLocationOf_public.
  by destruct (IsNewLocation _ _ _).
Qed.

End ManagerFacts.

(** ** Configuration defaults and construction *)

Section ConfigFacts.
Import heimdall.
Context {W : Type} {M : Math} {C : Clock W} {D : Drivers W}.

Lemma eqb_leb (x y : float64) :
  Float64.eqb x y = true -> Float64.leb x y = true.
Proof.
  unfold Float64.eqb, Float64.leb, SFeqb, SFleb.
  by destruct (SFcompare x y) as [[]|].
Qed.

Lemma applyDefaults_SessionTTL (cfg : Config W) :
  SessionTTL (applyDefaults cfg)
  = if (SessionTTL cfg <=? 0)%Z then (24 * Hour)%Z else SessionTTL cfg.
Proof. unfold applyDefaults. by repeat case_match. Qed.

Lemma applyDefaults_InvalidationTTL (cfg : Config W) :
  InvalidationTTL (applyDefaults cfg)
  = if (InvalidationTTL cfg <=? 0)%Z then (24 * Hour)%Z
    else InvalidationTTL cfg.
Proof.
  unfold applyDefaults.
  destruct (SessionTTL cfg <=? 0)%Z; simpl;
    destruct (InvalidationTTL cfg <=? 0)%Z; simpl; by repeat case_match.
Qed.

Lemma applyDefaults_NewLocationThresholdKM (cfg : Config W) :
  NewLocationThresholdKM (applyDefaults cfg)
  = if Float64.leb (NewLocationThresholdKM cfg) Float64.zero
    then Float64.of_Z 100 else NewLocationThresholdKM cfg.
Proof.
  unfold applyDefaults.
  destruct (SessionTTL cfg <=? 0)%Z; simpl;
    destruct (InvalidationTTL cfg <=? 0)%Z; simpl;
    destruct (Float64.leb (NewLocationThresholdKM cfg) Float64.zero); simpl;
    by repeat case_match.
Qed.

Lemma New_config (cfg : Config W) w h e w' :
  New cfg w = Returns ((Some h, e), w') -> config h = applyDefaults cfg.
Proof.
  unfold New, bind, ret. intros HNew.
  repeat (case_match; simplify_eq; try done).
Qed.

(** A manager built by [New] never runs with a threshold that is zero or
    negative. *)
Lemma New_threshold_above_zero (cfg : Config W) w h e w' :
  New cfg w = Returns ((Some h, e), w') ->
  Float64.leb (NewLocationThresholdKM (config h)) Float64.zero = false.
Proof.
  intros HNew.
  rewrite (New_config _ _ _ _ _ HNew), applyDefaults_NewLocationThresholdKM.
  by destruct (Float64.leb (NewLocationThresholdKM cfg) Float64.zero) eqn:Hle.
Qed.

(** C8 (as the code has it). A manager constructed with
    [NewLocationThresholdKM = 0] runs with the default threshold of 100 km:
    a registration accepted next to a most recent session with known
    coordinates is flagged exactly when the haversine distance exceeds
    100 km. *)
Theorem C8_zero_threshold_is_default (cfg : Config W) w0 h w0'
    st userID sessionID device location concurrentLimit w latest rest w' :
  Float64.eqb (NewLocationThresholdKM cfg) Float64.zero = true ->
  New cfg w0 = Returns ((Some h, None), w0') ->
  sessions h = Some st ->
  store.SessionStore.GetActiveByUser st userID w
  = Returns (latest :: rest, None) ->
  limitReached concurrentLimit (latest :: rest) = false ->
  store.SessionStore.Save st
    (newStoreSession h userID sessionID device location (time_Now w)) w
  = Returns (None, w') ->
  known_coordinates (Location (storeToSession latest)) = true ->
  known_coordinates location = true ->
  NewLocationThresholdKM (config h) = Float64.of_Z 100
  /\ exists r,
       RegisterSession h userID sessionID device location concurrentLimit w
       = Returns ((Some r, None), w')
       /\ IsNewLocation_ r
          = Float64.gtb (distanceKM (Location (storeToSession latest)) location)
                        (Float64.of_Z 100).
Proof.
  intros Hzero HNew Hst Hget Hlimit Hsave Hprev Hcurr.
  assert (Hthr : NewLocationThresholdKM (config h) = Float64.of_Z 100).
  { rewrite (New_config _ _ _ _ _ HNew), applyDefaults_NewLocationThresholdKM.
    by rewrite (eqb_leb _ _ Hzero). }
  split; [exact Hthr|].
  rewrite (RegisterSession_accepted h st _ _ _ _ _ _ _ Hst Hget Hlimit), Hsave.
  eexists. split; [reflexivity|].
  unfold accepted, verdictOn. rewrite prevLocationOf_public, Hthr.
  rewrite (IsNewLocation_known _ _ _ Hprev Hcurr).
  by destruct (Float64.gtb _ _).
Qed.

End ConfigFacts.

(** ** Runs of the manager on the in-memory world *)

Section Runs.
Import store heimdall inmem scenario.

(** C7 at New York and a point 0.0001 degree north of it, threshold 0. *)
Lemma C7_IsNewLocation_strict_witness :
  known_coordinates nyc = true
  /\ known_coordinates nycNearby = true
  /\ (IsNewLocation (M := smallAngleMath) nyc nycNearby Float64.zero
      = Float64.gtb (distanceKM (M := smallAngleMath) nyc nycNearby)
                    Float64.zero
      /\ (distanceKM (M := smallAngleMath) nyc nycNearby = Float64.zero
          \/ Float64.eqb (distanceKM (M := smallAngleMath) nyc nycNearby)
                         Float64.zero = true ->
          IsNewLocation (M := smallAngleMath) nyc nycNearby Float64.zero
          = false)
      /\ (Float64.gtb (distanceKM (M := smallAngleMath) nyc nycNearby)
                      Float64.zero = true ->
          IsNewLocation (M := smallAngleMath) nyc nycNearby Float64.zero
          = true)).
Proof.
  split; [vm_compute; reflexivity|].
  split; [vm_compute; reflexivity|].
  apply (C7_IsNewLocation_strict (M := smallAngleMath) nyc nycNearby
           Float64.zero); vm_compute; reflexivity.
Defined.

(** C1 for user u1 holding s1 and s2: a third registration with limit 2 is
    rejected and leaves the world as it is; with limit 0 it is accepted. *)
Lemma C1_limit_check_witness :
  let h := managerOf testConfig in
  let w := w2 h in
  let active := activeOf "u1" w in
  (exists r,
     RegisterSession (M := smallAngleMath) h "u1" "s3" device london 2 w
     = Returns ((Some r, None), w)
     /\ LimitExceeded r = true
     /\ Session_ r = None
     /\ ActiveSessions r = map storeToSession active)
  /\ (exists r w',
        RegisterSession (M := smallAngleMath) h "u1" "s3" device london 0 w
        = Returns ((Some r, None), w')
        /\ LimitExceeded r = false
        /\ Session_ r
           = Some (newSession h "u1" "s3" device london (clock w))
        /\ ActiveSessions r
           = newSession h "u1" "s3" device london (clock w)
             :: map storeToSession active).
Proof.
  intros h w active.
  assert (Hget : SessionStore.GetActiveByUser sessionStore "u1" w
                 = Returns (active, None)) by (vm_compute; reflexivity).
  assert (Hlen : (2 <= Z.of_nat (length active))%Z)
    by (vm_compute; discriminate).
  split.
  - exact (proj1 (C1_limit_check (M := smallAngleMath) h sessionStore "u1"
                    "s3" device london 2 w active eq_refl Hget)
             eq_refl Hlen).
  - pose proof (proj2 (C1_limit_check (M := smallAngleMath) h sessionStore
                         "u1" "s3" device london 0 w active eq_refl Hget)
                  eq_refl) as Hacc.
    hnf in Hacc. destruct Hacc as (r & Hr). exists r. eexists. exact Hr.
Defined.

(** Three runs of [InvalidateSession] after s1 was registered: the store
    fails (the world, and with it the cache, is left as it was); the cache
    fails after the delete; both succeed. *)
Lemma C4_InvalidateSession_order_witness :
  (InvalidateSession brokenStoreManager "s1" (w1 (managerOf testConfig))
   = Returns (Some (fmt_Errorf_w "heimdall: failed to delete session: "
                      storageUnavailable),
              w1 (managerOf testConfig)))
  /\ (InvalidateSession brokenCacheManager "s1" (w1 (managerOf testConfig))
      = Returns (Some (fmt_Errorf_w "heimdall: failed to set invalidation: "
                         storageUnavailable),
                 after (SessionStore.Delete sessionStore "s1")
                   (w1 (managerOf testConfig))))
  /\ InvalidateSession (managerOf testConfig) "s1" (w1 (managerOf testConfig))
     = Returns (None,
                after (InvalidationCache.Set_ invalidationCache "s1"
                         (24 * Hour)%Z)
                  (after (SessionStore.Delete sessionStore "s1")
                     (w1 (managerOf testConfig)))).
Proof.
  split; [|split].
  - exact (C4_InvalidateSession_order brokenStoreManager
             (failingStore storageUnavailable) invalidationCache "s1"
             (w1 (managerOf testConfig)) eq_refl eq_refl).
  - exact (C4_InvalidateSession_order brokenCacheManager
             sessionStore (failingCache storageUnavailable) "s1"
             (w1 (managerOf testConfig)) eq_refl eq_refl).
  - exact (C4_InvalidateSession_order (managerOf testConfig)
             sessionStore invalidationCache "s1"
             (w1 (managerOf testConfig)) eq_refl eq_refl).
Defined.

(** C5 for user u1 holding s1 from New York and registering s2 from London
    at threshold 100: flagged, with New York as the previous location. *)
Lemma C5_verdict_from_latest_witness :
  let h := managerOf testConfig in
  exists r,
    RegisterSession (M := smallAngleMath) h "u1" "s2" device london 10 (w1 h)
    = Returns ((Some r, None),
               after (register smallAngleMath h "u1" "s2" london 10) (w1 h))
    /\ IsNewLocation_ r = true
    /\ (City <$> PreviousLocation r) = Some "New York".
Proof.
  intros h.
  assert (Hget : SessionStore.GetActiveByUser sessionStore "u1" (w1 h)
                 = Returns (activeOf "u1" (w1 h), None))
    by (vm_compute; reflexivity).
  assert (Hlimit : limitReached 10 (activeOf "u1" (w1 h)) = false)
    by (vm_compute; reflexivity).
  assert (Hsave : SessionStore.Save sessionStore
                    (newStoreSession h "u1" "s2" device london
                       (time_Now (w1 h))) (w1 h)
                  = Returns (None,
                             after (register smallAngleMath h "u1" "s2"
                                      london 10) (w1 h)))
    by (vm_compute; reflexivity).
  destruct (C5_verdict_from_latest (M := smallAngleMath) h sessionStore "u1"
              "s2" device london 10 (w1 h) (activeOf "u1" (w1 h)) _
              eq_refl Hget Hlimit Hsave) as (r & Hr & Hverdict).
  exists r. split; [exact Hr|].
  assert (Hactive : activeOf "u1" (w1 h)
                    = [newStoreSession h "u1" "s1" device nyc 0%Z])
    by (vm_compute; reflexivity).
  rewrite Hactive in Hverdict. destruct Hverdict as [Hnew Hprev].
  assert (Hflag : IsNewLocation (M := smallAngleMath)
                    (Location (storeToSession
                       (newStoreSession h "u1" "s1" device nyc 0%Z)))
                    london (NewLocationThresholdKM (config h)) = true)
    by (vm_compute; reflexivity).
  rewrite Hflag in Hnew. rewrite Hnew in Hprev. rewrite Hprev.
  split; [exact Hnew | reflexivity].
Defined.

Lemma New_injected (cfg : Config World) (w : World) :
  SessionStore cfg = Some sessionStore ->
  InvalidationCache cfg = Some invalidationCache ->
  GeoIPDatabasePath cfg = "" ->
  New cfg w = Returns ((Some (managerOf cfg), None), w).
Proof.
  intros Hst Hca Hgeo. unfold New, bind, ret, managerOf.
  assert (Hst' : SessionStore (applyDefaults cfg) = Some sessionStore).
  { rewrite <- Hst. unfold applyDefaults. by repeat case_match. }
  assert (Hca' : InvalidationCache (applyDefaults cfg)
                 = Some invalidationCache).
  { rewrite <- Hca. unfold applyDefaults. by repeat case_match. }
  assert (Hgeo' : GeoIPDatabasePath (applyDefaults cfg) = "").
  { rewrite <- Hgeo. unfold applyDefaults. by repeat case_match. }
  by rewrite Hst', Hca', Hgeo'.
Qed.

(** C8 on the manager built from threshold 0: the second registration of
    u1, 0.0001 degree from the first, is judged against 100 km. *)
Lemma C8_zero_threshold_is_default_witness :
  let h := managerOf zeroThresholdConfig in
  NewLocationThresholdKM (config h) = Float64.of_Z 100
  /\ exists r,
       RegisterSession (M := smallAngleMath) h "u1" "s2" device nycNearby 2
         (w1 h)
       = Returns ((Some r, None),
                  after (register smallAngleMath h "u1" "s2" nycNearby 2)
                    (w1 h))
       /\ IsNewLocation_ r
          = Float64.gtb
              (distanceKM (M := smallAngleMath)
                 (Location (storeToSession
                    (newStoreSession h "u1" "s1" device nyc 0%Z)))
                 nycNearby)
              (Float64.of_Z 100).
Proof.
  intros h.
  assert (Hget : SessionStore.GetActiveByUser sessionStore "u1" (w1 h)
                 = Returns ([newStoreSession h "u1" "s1" device nyc 0%Z],
                            None))
    by (vm_compute; reflexivity).
  assert (Hsave : SessionStore.Save sessionStore
                    (newStoreSession h "u1" "s2" device nycNearby
                       (time_Now (w1 h))) (w1 h)
                  = Returns (None,
                             after (register smallAngleMath h "u1" "s2"
                                      nycNearby 2) (w1 h)))
    by (vm_compute; reflexivity).
  assert (Hprev : known_coordinates
                    (Location (storeToSession
                       (newStoreSession h "u1" "s1" device nyc 0%Z))) = true)
    by (vm_compute; reflexivity).
  assert (Hcurr : known_coordinates nycNearby = true)
    by (vm_compute; reflexivity).
  exact (C8_zero_threshold_is_default (M := smallAngleMath)
           zeroThresholdConfig w0 h w0 sessionStore "u1" "s2" device
           nycNearby 2 (w1 h) _ [] _
           eq_refl (New_injected zeroThresholdConfig w0 eq_refl eq_refl eq_refl)
           eq_refl Hget eq_refl Hsave Hprev Hcurr).
Defined.

(** C8 as stated fails: the manager built from [NewLocationThresholdKM = 0]
    has threshold 100, not 0, and a registration 0.0001 degree away from the
    most recent session (a positive distance) is not flagged. Whatever the
    math functions, the verdict of that registration is [distance > 100]. *)
Lemma C8_zero_threshold_counterexample :
  NewLocationThresholdKM zeroThresholdConfig = Float64.zero
  /\ New zeroThresholdConfig w0
     = Returns ((Some (managerOf zeroThresholdConfig), None), w0)
  /\ NewLocationThresholdKM (config (managerOf zeroThresholdConfig))
     = Float64.of_Z 100
  /\ NewLocationThresholdKM (config (managerOf zeroThresholdConfig))
     <> Float64.zero
  /\ known_coordinates nyc = true
  /\ known_coordinates nycNearby = true
  /\ Float64.gtb (distanceKM (M := smallAngleMath) nyc nycNearby)
                 Float64.zero = true
  /\ IsNewLocation_
       <$> registered (register smallAngleMath (managerOf zeroThresholdConfig)
                         "u1" "s2" nycNearby 2)
             (w1 (managerOf zeroThresholdConfig))
     = Some false
  /\ (forall M : Math,
        IsNewLocation_
          <$> registered (register M (managerOf zeroThresholdConfig)
                            "u1" "s2" nycNearby 2)
                (w1 (managerOf zeroThresholdConfig))
        = Some (Float64.gtb (distanceKM (M := M) nyc nycNearby)
                            (Float64.of_Z 100))).
Proof.
  split; [reflexivity|].
  split; [reflexivity|].
  split; [vm_compute; reflexivity|].
  split; [vm_compute; discriminate|].
  split; [vm_compute; reflexivity|].
  split; [vm_compute; reflexivity|].
  split; [vm_compute; reflexivity|].
  split; [vm_compute; reflexivity|].
  intros M.
  set (h := managerOf zeroThresholdConfig).
  set (s1 := newStoreSession h "u1" "s1" device nyc 0%Z).
  assert (Hget : SessionStore.GetActiveByUser sessionStore "u1" (w1 h)
                 = Returns ([s1], None)) by (vm_compute; reflexivity).
  assert (Hsave : SessionStore.Save sessionStore
                    (newStoreSession h "u1" "s2" device nycNearby
                       (time_Now (w1 h))) (w1 h)
                  = Returns (None,
                             after (SessionStore.Save sessionStore
                                      (newStoreSession h "u1" "s2" device
                                         nycNearby (time_Now (w1 h))))
                               (w1 h)))
    by (vm_compute; reflexivity).
  unfold registered, returned, register.
  rewrite (RegisterSession_accepted (M := M) h sessionStore "u1" "s2" device
             nycNearby 2 (w1 h) [s1] eq_refl Hget eq_refl).
  rewrite Hsave. unfold accepted, verdictOn. rewrite prevLocationOf_public.
  assert (Hthr : NewLocationThresholdKM (config h) = Float64.of_Z 100)
    by (vm_compute; reflexivity).
  rewrite Hthr.
  rewrite (IsNewLocation_known (M := M) (Location (storeToSession s1))
             nycNearby (Float64.of_Z 100));
    [|vm_compute; reflexivity|vm_compute; reflexivity].
  by destruct (Float64.gtb _ _).
Qed.

(** C3, on the code: with [SessionTTL] = 48 hours and [InvalidationTTL]
    unset, the constructed manager keeps the 48-hour session TTL but gets an
    invalidation TTL of 24 hours. *)
Theorem C3_InvalidationTTL_default_is_24h :
  InvalidationTTL longSessionConfig = 0%Z
  /\ New longSessionConfig w0
     = Returns ((Some (managerOf longSessionConfig), None), w0)
  /\ SessionTTL (config (managerOf longSessionConfig)) = (48 * Hour)%Z
  /\ InvalidationTTL (config (managerOf longSessionConfig)) = (24 * Hour)%Z
  /\ InvalidationTTL (config (managerOf longSessionConfig))
     <> SessionTTL (config (managerOf longSessionConfig)).
Proof.
  split; [reflexivity|].
  split; [reflexivity|].
  split; [reflexivity|].
  split; [reflexivity|].
  vm_compute. discriminate.
Qed.

End Runs.

(** ** The in-memory invalidation cache *)

Section MemoryCacheFacts.
Import store store.MemoryCache inmem scenario.

Lemma Exists_entry (sessionID : string) (c : MemoryCache.t) :
  MemoryCache.Exists sessionID c
  = (bool_decide (is_Some (entries c !! sessionID)), None).
Proof.
  unfold MemoryCache.Exists. destruct (entries c !! sessionID) eqn:He.
  - by rewrite bool_decide_eq_true_2.
  - rewrite bool_decide_eq_false_2; [done|]. by intros [? ?].
Qed.

Lemma Exists_after_Set (sessionID : string) (ttl : Duration) (now : Time)
    (c : MemoryCache.t) :
  MemoryCache.Exists sessionID (MemoryCache.Set_ sessionID ttl now c).1
  = (true, None).
Proof.
  unfold MemoryCache.Exists, MemoryCache.Set_. simpl.
  by rewrite lookup_insert_eq.
Qed.

Lemma cleanup_lookup (now : Time) (c : MemoryCache.t) (sessionID : string)
    (expiresAt : Time) :
  entries (cleanup now c) !! sessionID = Some expiresAt
  <-> entries c !! sessionID = Some expiresAt /\ After now expiresAt = false.
Proof.
  unfold cleanup. simpl. rewrite map_lookup_filter_Some. simpl.
  split; intros [He Hnot]; (split; [done|]).
  - destruct (After now expiresAt); [by destruct Hnot | done].
  - rewrite Hnot. by intros [].
Qed.

(** After a cleanup no expired entry is left. *)
Lemma Exists_after_cleanup (now : Time) (c : MemoryCache.t)
    (sessionID : string) (expiresAt : Time) :
  entries c !! sessionID = Some expiresAt ->
  After now expiresAt = true ->
  MemoryCache.Exists sessionID (cleanup now c) = (false, None).
Proof.
  intros He Hexp. unfold MemoryCache.Exists.
  destruct (entries (cleanup now c) !! sessionID) as [e|] eqn:Hc; [|done].
  apply cleanup_lookup in Hc as [Hc Hnot]. congruence.
Qed.

(** C2, on the code. [Exists] looks the session ID up and nothing else:
    right after [Set] it answers [true] whatever the TTL and the time. In the
    run [Set("s1", 1h)] at time 0, two hours later the entry expired one hour
    ago and [Exists("s1")] still answers [true]; it answers [false] only once
    the ticker of [cleanupLoop] (every 48 hours) has fired. *)
Theorem C2_Exists_ignores_expiry :
  (forall sessionID ttl now c,
     MemoryCache.Exists sessionID (MemoryCache.Set_ sessionID ttl now c).1
     = (true, None))
  /\ entries (the_cache cacheWorld) !! "s1" = Some Hour
  /\ clock cacheWorld = (2 * Hour)%Z
  /\ After (clock cacheWorld) Hour = true
  /\ InvalidationCache.Exists invalidationCache "s1" cacheWorld
     = Returns (true, None)
  /\ InvalidationCache.Exists invalidationCache "s1" sweptWorld
     = Returns (false, None).
Proof.
  split; [exact Exists_after_Set|].
  repeat split; vm_compute; reflexivity.
Qed.

Lemma Close_twice (c c' : MemoryCache.t) (err : option error) :
  MemoryCache.Close c = Returns (c', err) ->
  MemoryCache.Close c' = Panics close_of_closed_channel.
Proof.
  unfold MemoryCache.Close. destruct (stopCleanup c); [done|].
  intros [= <- _]. reflexivity.
Qed.

(** C9, on the code. The first [Close] of a [MemoryCache] closes the
    [stopCleanup] channel and returns; every second [Close] panics with
    "close of closed channel". A manager on the in-memory backends returns
    from its first [Close] without error and panics in the second. *)
Theorem C9_second_Close_panics :
  MemoryCache.Close NewMemoryCache
  = Returns ({| entries := ∅; stopCleanup := true |}, None)
  /\ MemoryCache.Close {| entries := ∅; stopCleanup := true |}
     = Panics close_of_closed_channel
  /\ heimdall.Close (managerOf testConfig) w0 = Returns (None, closedOnce)
  /\ heimdall.Close (managerOf testConfig) closedOnce
     = Panics close_of_closed_channel.
Proof.
  repeat split; vm_compute; reflexivity.
Qed.

End MemoryCacheFacts.

(** ** The in-memory session store: the sort and the active query *)

Section MemorySessionStoreFacts.
Import store store.MemorySessionStore.
Implicit Types (a : list Session) (s : MemorySessionStore.t).

Lemma foldl_seq_invariant {A} (P : nat -> A -> Prop) (f : A -> nat -> A)
    (x0 : A) (lo n : nat) :
  P lo x0 ->
  (forall j x, lo <= j < lo + n -> P j x -> P (S j) (f x j)) ->
  P (lo + n) (foldl f x0 (seq lo n)).
Proof.
  intros H0 Hstep. induction n as [|n IH].
  - by rewrite Nat.add_0_r.
  - rewrite seq_S, foldl_app. simpl. rewrite Nat.add_succ_r.
    apply Hstep; [lia|]. apply IH. intros j x Hj. apply Hstep. lia.
Qed.

Lemma insert_Permutation_delete {A} (l : list A) i x y :
  l !! i = Some x -> <[i:=y]> l ≡ₚ y :: delete i l.
Proof.
  intros Hi. rewrite insert_take_drop by (by eapply lookup_lt_Some).
  rewrite delete_take_drop. by rewrite <- Permutation_middle.
Qed.

Lemma swap_Permutation {A} (l : list A) i j x y :
  i <> j -> l !! i = Some x -> l !! j = Some y ->
  <[i:=y]> (<[j:=x]> l) ≡ₚ l.
Proof.
  intros Hij Hi Hj.
  assert (Hi' : <[j:=x]> l !! i = Some x)
    by (by rewrite list_lookup_insert_ne).
  pose proof (delete_Permutation _ _ _ Hi') as H2.
  pose proof (insert_Permutation_delete l j y x Hj) as H3.
  pose proof (delete_Permutation l j y Hj) as H4.
  assert (H5 : delete i (<[j:=x]> l) ≡ₚ delete j l).
  { apply (Permutation_cons_inv (a := x)). by rewrite <- H2, H3. }
  rewrite (insert_Permutation_delete _ i x y Hi'), H5. by symmetry.
Qed.

Lemma swapIfNewer_length i j a : length (swapIfNewer i j a) = length a.
Proof.
  unfold swapIfNewer. repeat case_match; by rewrite ?length_insert.
Qed.

Lemma swapIfNewer_Permutation i j a : i <> j -> swapIfNewer i j a ≡ₚ a.
Proof.
  intros Hij. unfold swapIfNewer.
  destruct (a !! i) as [x|] eqn:Hi; [|done].
  destruct (a !! j) as [y|] eqn:Hj; [|done].
  case_match; [by apply swap_Permutation | done].
Qed.

Lemma swapIfNewer_lookup_ne i j q a :
  q <> i -> q <> j -> swapIfNewer i j a !! q = a !! q.
Proof.
  intros Hi Hj. unfold swapIfNewer.
  repeat case_match; by rewrite ?list_lookup_insert_ne.
Qed.

Lemma swapIfNewer_pair i j a x y :
  i <> j -> a !! i = Some x -> a !! j = Some y ->
  (swapIfNewer i j a !! i = Some x /\ swapIfNewer i j a !! j = Some y
   /\ (CreatedAt y <= CreatedAt x)%Z)
  \/ (swapIfNewer i j a !! i = Some y /\ swapIfNewer i j a !! j = Some x
      /\ (CreatedAt x < CreatedAt y)%Z).
Proof.
  intros Hij Hi Hj. unfold swapIfNewer, After. rewrite Hi, Hj.
  pose proof (lookup_lt_Some _ _ _ Hi) as Hli.
  pose proof (lookup_lt_Some _ _ _ Hj) as Hlj.
  destruct (Z.ltb_spec (CreatedAt x) (CreatedAt y)) as [Hlt|Hge].
  - right. rewrite list_lookup_insert_eq by (by rewrite length_insert).
    rewrite list_lookup_insert_ne by done.
    by rewrite list_lookup_insert_eq.
  - left. done.
Qed.

Lemma swapIfNewer_leads i j a : i < j -> leads i a -> leads i (swapIfNewer i j a).
Proof.
  intros Hij Hlead p q x y Hp Hpq Hx Hy.
  rewrite swapIfNewer_lookup_ne in Hx by lia.
  destruct (a !! i) as [xi|] eqn:Hi;
    [|by unfold swapIfNewer in Hy; rewrite Hi in Hy; eapply Hlead].
  destruct (a !! j) as [xj|] eqn:Hj;
    [|by unfold swapIfNewer in Hy; rewrite Hi, Hj in Hy; eapply Hlead].
  destruct (decide (q = i)) as [->|Hqi]; [|destruct (decide (q = j)) as [->|Hqj]].
  - destruct (swapIfNewer_pair i j a xi xj) as [(Hi' & _)|(Hi' & _)];
      [lia|done|done| |]; rewrite Hi' in Hy; injection Hy as <-.
    + by apply (Hlead p i).
    + apply (Hlead p j); [done|lia|done|done].
  - destruct (swapIfNewer_pair i j a xi xj) as [(_ & Hj' & _)|(_ & Hj' & _)];
      [lia|done|done| |]; rewrite Hj' in Hy; injection Hy as <-.
    + apply (Hlead p j); [done|lia|done|done].
    + by apply (Hlead p i).
  - rewrite swapIfNewer_lookup_ne in Hy by done. by apply (Hlead p q).
Qed.

Lemma sortInner_spec i a :
  length (sortInner i a) = length a
  /\ sortInner i a ≡ₚ a
  /\ (leads i a -> leads (S i) (sortInner i a)).
Proof.
  unfold sortInner.
  destruct (decide (i + 1 <= length a)) as [Hlen|Hlen].
  - set (P := fun (j : nat) (a' : list Session) =>
        length a' = length a
        /\ a' ≡ₚ a
        /\ (leads i a ->
            leads i a'
            /\ forall q x y, i < q < j -> a' !! i = Some x -> a' !! q = Some y ->
                  (CreatedAt y <= CreatedAt x)%Z)).
    assert (HP : P (i + 1 + (length a - (i + 1)))
                   (foldl (fun a0 j => swapIfNewer i j a0) a
                      (seq (i + 1) (length a - (i + 1))))).
    { apply (foldl_seq_invariant P).
      - split; [done|]. split; [done|]. intros Hlead. split; [done|].
        intros q x y Hq. lia.
      - intros j a' Hj (Hl & Hp & Hinv).
        split; [by rewrite swapIfNewer_length|].
        split; [rewrite swapIfNewer_Permutation by lia; done|].
        intros Hlead. destruct (Hinv Hlead) as [Hlead' Hbound].
        split; [apply swapIfNewer_leads; [lia|done]|].
        intros q x y Hq Hx Hy.
        destruct (lookup_lt_is_Some_2 a' i) as [xi Hi]; [lia|].
        destruct (lookup_lt_is_Some_2 a' j) as [xj Hjj]; [lia|].
        destruct (swapIfNewer_pair i j a' xi xj) as
          [(Hi' & Hj' & Hle)|(Hi' & Hj' & Hlt)]; [lia|done|done| |];
          rewrite Hi' in Hx; injection Hx as <-.
        + destruct (decide (q = j)) as [->|Hqj].
          * rewrite Hj' in Hy. by injection Hy as <-.
          * rewrite swapIfNewer_lookup_ne in Hy by lia.
            apply (Hbound q xi y); [lia|done|done].
        + destruct (decide (q = j)) as [->|Hqj].
          * rewrite Hj' in Hy. injection Hy as <-. lia.
          * rewrite swapIfNewer_lookup_ne in Hy by lia.
            pose proof (Hbound q xi y ltac:(lia) Hi Hy). lia. }
    destruct HP as (Hl & Hp & Hinv).
    split; [done|]. split; [done|].
    intros Hlead. destruct (Hinv Hlead) as [Hlead' Hbound].
    intros p q x y Hp' Hpq Hx Hy.
    destruct (decide (p = i)) as [->|Hpi].
    + apply (Hbound q x y); [|done|done].
      pose proof (lookup_lt_Some _ _ _ Hy). lia.
    + apply (Hlead' p q x y); [lia|done|done|done].
  - replace (length a - (i + 1)) with 0 by lia. simpl.
    split; [done|]. split; [done|].
    intros Hlead p q x y Hp Hpq Hx Hy.
    destruct (decide (p = i)) as [->|Hpi].
    + pose proof (lookup_lt_Some _ _ _ Hx).
      pose proof (lookup_lt_Some _ _ _ Hy). lia.
    + apply (Hlead p q x y); [lia|done|done|done].
Qed.

Lemma sortByCreatedAtDesc_spec a :
  length (sortByCreatedAtDesc a) = length a
  /\ sortByCreatedAtDesc a ≡ₚ a
  /\ newestFirst (sortByCreatedAtDesc a).
Proof.
  unfold sortByCreatedAtDesc.
  set (Q := fun (m : nat) (a' : list Session) =>
      length a' = length a /\ a' ≡ₚ a /\ leads m a').
  assert (HQ : Q (0 + (length a - 1))
                 (foldl (fun a0 i => sortInner i a0) a
                    (seq 0 (length a - 1)))).
  { apply (foldl_seq_invariant Q).
    - split; [done|]. split; [done|]. intros p q x y Hp. lia.
    - intros i a' Hi (Hl & Hp & Hlead).
      destruct (sortInner_spec i a') as (Hl' & Hp' & Hlead').
      split; [congruence|]. split; [by rewrite Hp'|]. by apply Hlead'. }
  destruct HQ as (Hl & Hp & Hlead).
  split; [done|]. split; [done|].
  intros p q x y Hpq Hx Hy.
  apply (Hlead p q x y); [|done|done|done].
  pose proof (lookup_lt_Some _ _ _ Hy). lia.
Qed.

Lemma newestFirst_StronglySorted a :
  newestFirst a ->
  StronglySorted (fun x y => (CreatedAt y <= CreatedAt x)%Z) a.
Proof.
  induction a as [|x a IH]; intros Hnf; constructor.
  - apply IH. intros p q x' y' Hpq Hx Hy.
    apply (Hnf (S p) (S q) x' y'); [lia|done|done].
  - apply Forall_forall. intros y Hy.
    apply list_elem_of_lookup in Hy as [q Hq].
    apply (Hnf 0 (S q) x y); [lia|done|done].
Qed.

Lemma collectActive_omap s now (ids : list string) :
  collectActive s now ids = omap (activeSession s now) ids.
Proof.
  unfold collectActive.
  enough (Hgen : forall acc,
    foldl (fun active sessionID =>
             match sessions s !! sessionID with
             | Some session =>
                 if Before now (ExpiresAt session)
                 then active ++ [session] else active
             | None => active
             end) acc ids
    = acc ++ omap (activeSession s now) ids) by apply (Hgen []).
  induction ids as [|id ids IH]; intros acc; simpl.
  - by rewrite app_nil_r.
  - rewrite IH. unfold activeSession at 2.
    destruct (sessions s !! id) as [x|]; [|done].
    destruct (Before now (ExpiresAt x)); [|done].
    by rewrite <- app_assoc.
Qed.

(** The active query, whatever the order in which the range loop visits the
    index: no error, newest first, and a rearrangement of the unexpired
    sessions filed under the indexed IDs. *)
Lemma GetActiveByUser_in_order_spec (order : gset string -> list string)
    (userID : string) (now : Time) s :
  (GetActiveByUser_in_order order userID now s).2 = None
  /\ newestFirst (GetActiveByUser_in_order order userID now s).1
  /\ (GetActiveByUser_in_order order userID now s).1
     ≡ₚ match byUser s !! userID with
        | Some sessionIDs => omap (activeSession s now) (order sessionIDs)
        | None => []
        end.
Proof.
  unfold GetActiveByUser_in_order.
  destruct (byUser s !! userID) as [ids|]; simpl.
  - destruct (sortByCreatedAtDesc_spec (collectActive s now (order ids)))
      as (_ & Hp & Hnf).
    split; [done|]. split; [done|]. by rewrite Hp, collectActive_omap.
  - split; [done|]. split; [|done]. intros p q x y _ Hx. done.
Qed.

Lemma GetActiveByUser_unknown_user (userID : string) (now : Time) s :
  byUser s !! userID = None -> GetActiveByUser userID now s = ([], None).
Proof.
  intros Hu. unfold GetActiveByUser, GetActiveByUser_in_order. by rewrite Hu.
Qed.

Lemma GetActiveByUser_elem_of (userID : string) (now : Time) s x :
  x ∈ (GetActiveByUser userID now s).1
  <-> exists ids id,
        byUser s !! userID = Some ids /\ id ∈ ids
        /\ sessions s !! id = Some x /\ Before now (ExpiresAt x) = true.
Proof.
  destruct (GetActiveByUser_in_order_spec elements userID now s)
    as (_ & _ & Hp).
  unfold GetActiveByUser. rewrite Hp.
  destruct (byUser s !! userID) as [ids|].
  - rewrite list_elem_of_omap. split.
    + intros (id & Hid & Hact). exists ids, id.
      apply elem_of_elements in Hid. unfold activeSession in Hact.
      destruct (sessions s !! id) as [x'|]; [|done].
      destruct (Before now (ExpiresAt x')) eqn:Hb; [|done].
      injection Hact as ->. done.
    + intros (ids' & id & [= <-] & Hid & Hx & Hb). exists id.
      split; [by apply elem_of_elements|].
      unfold activeSession. by rewrite Hx, Hb.
  - split; [by intros ?%elem_of_nil|]. by intros (? & ? & ? & _).
Qed.

End MemorySessionStoreFacts.

(** ** The in-memory session store: the index *)

Section MemorySessionStoreIndex.
Import store store.MemorySessionStore.
Implicit Types (s : MemorySessionStore.t).
#[local] Set Warnings "-clear-no-such-hyp".

Lemma Save_sessions session s :
  sessions (Save session s).1 = <[SessionID session := session]> (sessions s).
Proof. reflexivity. Qed.

Lemma Save_byUser session s :
  byUser (Save session s).1
  = <[UserID session :=
        {[SessionID session]} ∪ default ∅ (byUser s !! UserID session)]>
      (byUser s).
Proof.
  unfold Save. simpl.
  destruct (byUser s !! UserID session) as [ids|] eqn:Hu; simpl.
  - by rewrite Hu.
  - by rewrite lookup_insert_eq, insert_insert_eq.
Qed.

Lemma indexed_New : indexed NewMemorySessionStore.
Proof.
  split.
  - intros id x Hx. simpl in Hx. by rewrite lookup_empty in Hx.
  - intros u ids id Hu. simpl in Hu. by rewrite lookup_empty in Hu.
Qed.

(** [Save] keeps the index in step as long as the session ID is new or is
    already stored for the same user. *)
Lemma indexed_Save session s :
  indexed s ->
  (forall x, sessions s !! SessionID session = Some x ->
             UserID x = UserID session) ->
  indexed (Save session s).1.
Proof.
  intros [Hfiled Hidx] Hsame. split.
  - intros id x. rewrite Save_sessions, Save_byUser.
    destruct (decide (id = SessionID session)) as [->|Hid].
    + rewrite lookup_insert_eq. intros [= <-]. split; [done|].
      eexists. rewrite lookup_insert_eq. split; [done|]. set_solver.
    + rewrite lookup_insert_ne by done. intros Hx.
      destruct (Hfiled id x Hx) as (Hsid & ids & Hu & Hmem). split; [done|].
      destruct (decide (UserID x = UserID session)) as [Heq|Hne].
      * rewrite Heq, lookup_insert_eq. eexists. split; [done|].
        rewrite <- Heq, Hu. simpl. set_solver.
      * exists ids. by rewrite lookup_insert_ne.
  - intros u ids id. rewrite Save_sessions, Save_byUser.
    destruct (decide (u = UserID session)) as [->|Hu].
    + rewrite lookup_insert_eq. intros [= <-] Hmem.
      destruct (decide (id = SessionID session)) as [->|Hid].
      * exists session. by rewrite lookup_insert_eq.
      * rewrite lookup_insert_ne by done.
        destruct (byUser s !! UserID session) as [ids0|] eqn:Hu0;
          simpl in Hmem; [|set_solver].
        apply (Hidx (UserID session) ids0 id Hu0). set_solver.
    + rewrite lookup_insert_ne by done. intros Hids Hmem.
      destruct (Hidx u ids id Hids Hmem) as (x & Hx & Hux).
      destruct (decide (id = SessionID session)) as [->|Hid].
      * specialize (Hsame x Hx). congruence.
      * exists x. by rewrite lookup_insert_ne.
Qed.

Lemma indexed_Delete (sessionID : string) s :
  indexed s -> indexed (Delete sessionID s).1.
Proof.
  intros [Hfiled Hidx]. unfold Delete.
  destruct (sessions s !! sessionID) as [x0|] eqn:Hx0; [|done]. simpl.
  destruct (Hfiled sessionID x0 Hx0) as (Hsid & ids0 & Hu0 & Hmem0).
  rewrite Hu0. split; simpl.
  - intros id x Hx.
    apply lookup_delete_Some in Hx as [Hid Hx].
    destruct (Hfiled id x Hx) as (Hsid' & ids & Hu & Hmem). split; [done|].
    destruct (decide (UserID x = UserID x0)) as [Heq|Hne].
    + rewrite Heq in Hu. assert (ids = ids0) as -> by congruence.
      destruct (decide (size (ids0 ∖ {[sessionID]}) = 0)) as [Hsz|Hsz].
      * apply size_empty_inv in Hsz. set_solver.
      * rewrite Heq, lookup_insert_eq. eexists. split; [done|]. set_solver.
    + exists ids. split; [|done].
      destruct (decide (size (ids0 ∖ {[sessionID]}) = 0)).
      * by rewrite lookup_delete_ne.
      * by rewrite lookup_insert_ne.
  - intros u ids id Hu Hmem.
    destruct (decide (u = UserID x0)) as [->|Hne].
    + destruct (decide (size (ids0 ∖ {[sessionID]}) = 0)).
      * by rewrite lookup_delete_eq in Hu.
      * rewrite lookup_insert_eq in Hu. injection Hu as <-.
        destruct (Hidx (UserID x0) ids0 id Hu0) as (x & Hx & Hux);
          [set_solver|].
        exists x. split; [|done]. rewrite lookup_delete_ne; [done|set_solver].
    + assert (Hu' : byUser s !! u = Some ids).
      { destruct (decide (size (ids0 ∖ {[sessionID]}) = 0)).
        - by rewrite lookup_delete_ne in Hu.
        - by rewrite lookup_insert_ne in Hu. }
      destruct (Hidx u ids id Hu' Hmem) as (x & Hx & Hux).
      exists x. split; [|done]. rewrite lookup_delete_ne; [done|].
      intros <-. congruence.
Qed.

(** On a store whose index agrees with its sessions the active query
    returns, newest first and without error, exactly the stored sessions of
    the user with [now < expiresAt]. *)
Lemma GetActiveByUser_exact (userID : string) (now : Time) s :
  indexed s ->
  (GetActiveByUser userID now s).2 = None
  /\ newestFirst (GetActiveByUser userID now s).1
  /\ (forall x, x ∈ (GetActiveByUser userID now s).1
                <-> storedActive userID now s x).
Proof.
  intros [Hfiled Hidx].
  destruct (GetActiveByUser_in_order_spec elements userID now s)
    as (Herr & Hnf & _).
  split; [done|]. split; [done|].
  intros x. rewrite GetActiveByUser_elem_of. unfold storedActive. split.
  - intros (ids & id & Hu & Hmem & Hx & Hb).
    destruct (Hfiled id x Hx) as (Hsid & _).
    destruct (Hidx userID ids id Hu Hmem) as (x' & Hx' & Hux).
    assert (x' = x) as -> by congruence.
    by rewrite Hsid.
  - intros (Hx & Hu & Hb).
    destruct (Hfiled _ x Hx) as (_ & ids & Hids & Hmem).
    exists ids, (SessionID x). by rewrite <- Hu.
Qed.

End MemorySessionStoreIndex.

(** ** The manager on the in-memory backends *)

Section InMemoryManager.
Import store heimdall inmem scenario.
Context {M : Math}.

Lemma inmem_GetActiveByUser (userID : string) (w : World) :
  SessionStore.GetActiveByUser sessionStore userID w
  = Returns (activeOf userID w, None).
Proof.
  unfold activeOf. simpl.
  destruct (GetActiveByUser_in_order_spec elements userID (clock w)
              (the_store w)) as (Herr & _).
  unfold MemorySessionStore.GetActiveByUser.
  destruct (MemorySessionStore.GetActiveByUser_in_order _ _ _ _) as [l e].
  simpl in *. by subst e.
Qed.

Lemma inmem_Save (session : store.Session) (w : World) :
  SessionStore.Save sessionStore session w
  = Returns (None,
             {| the_store := (MemorySessionStore.Save session (the_store w)).1;
                the_cache := the_cache w;
                clock := clock w |}).
Proof. reflexivity. Qed.

(** On the in-memory backends a registration with [concurrentLimit = 0] is
    accepted in every world, whatever the number of active sessions. *)
Lemma RegisterSession_unlimited_inmem (cfg : Config World)
    (userID sessionID : string) (device : DeviceInfo)
    (location : LocationInfo) (w : World) :
  exists r w',
    RegisterSession (managerOf cfg) userID sessionID device location 0 w
    = Returns ((Some r, None), w')
    /\ LimitExceeded r = false
    /\ Session_ r
       = Some (newSession (managerOf cfg) userID sessionID device location
                 (clock w))
    /\ the_store w'
       = (MemorySessionStore.Save
            (newStoreSession (managerOf cfg) userID sessionID device location
               (clock w)) (the_store w)).1.
Proof.
  rewrite (RegisterSession_accepted (managerOf cfg) sessionStore userID
             sessionID device location 0 w (activeOf userID w) eq_refl
             (inmem_GetActiveByUser userID w) eq_refl).
  rewrite inmem_Save. eexists _, _. by repeat split.
Qed.

End InMemoryManager.

(** ** The in-memory session store: two runs *)

Section MemorySessionStoreRuns.
Import store store.MemorySessionStore inmem scenario.

Lemma shared_sessions :
  map_to_list (sessions shared)
  ≡ₚ [("a1", sessionOf "a1" "bob" (30 * Second)%Z);
      ("a2", sessionOf "a2" "alice" (20 * Second)%Z)].
Proof. vm_compute. reflexivity. Qed.

Lemma storedActive_shared_alice (x : Session) :
  storedActive "alice" (40 * Second)%Z shared x
  <-> x = sessionOf "a2" "alice" (20 * Second)%Z.
Proof.
  unfold storedActive. split.
  - intros (Hx & Hu & _).
    apply elem_of_map_to_list in Hx. rewrite shared_sessions in Hx.
    apply elem_of_cons in Hx as [Hx|Hx].
    + injection Hx as _ ->. discriminate Hu.
    + apply list_elem_of_singleton in Hx. by injection Hx as _ ->.
  - intros ->. repeat split; vm_compute; reflexivity.
Qed.

(** The two runs below do not depend on the order in which the range loop
    of [GetActiveByUser] visits the index. *)
Lemma shared_any_order (order : gset string -> list string) :
  (forall ids, order ids ≡ₚ elements ids) ->
  GetActiveByUser_in_order order "alice" (40 * Second)%Z shared
  = GetActiveByUser "alice" (40 * Second)%Z shared.
Proof.
  intros Horder. unfold GetActiveByUser, GetActiveByUser_in_order.
  assert (Hu : byUser shared !! "alice" = Some {["a1"; "a2"]})
    by (vm_compute; reflexivity).
  rewrite Hu.
  assert (He : elements ({["a1"; "a2"]} : gset string) = ["a1"; "a2"])
    by (vm_compute; reflexivity).
  specialize (Horder {["a1"; "a2"]}). rewrite He in Horder. rewrite He.
  symmetry in Horder. apply Permutation_length_2_inv in Horder as [->| ->];
    vm_compute; reflexivity.
Qed.

Lemma reassigned_any_order (order : gset string -> list string) :
  (forall ids, order ids ≡ₚ elements ids) ->
  GetActiveByUser_in_order order "alice" (2 * Second)%Z reassigned
  = GetActiveByUser "alice" (2 * Second)%Z reassigned.
Proof.
  intros Horder. unfold GetActiveByUser, GetActiveByUser_in_order.
  assert (Hu : byUser reassigned !! "alice" = Some {["s1"]})
    by (vm_compute; reflexivity).
  rewrite Hu.
  assert (He : elements ({["s1"]} : gset string) = ["s1"])
    by (vm_compute; reflexivity).
  specialize (Horder {["s1"]}). rewrite He in Horder. rewrite He.
  symmetry in Horder. apply Permutation_singleton_l in Horder as ->.
  reflexivity.
Qed.

(** C6, on the code. alice holds a1 and a2, and a1 is then saved again for
    bob. The active query for alice returns two sessions, newest first; the
    first is the session of bob. The stored, unexpired sessions of alice are
    a2 alone. *)
Theorem C6_active_query_returns_foreign_session :
  GetActiveByUser "alice" (40 * Second)%Z shared
  = ([sessionOf "a1" "bob" (30 * Second)%Z;
      sessionOf "a2" "alice" (20 * Second)%Z], None)
  /\ ~ storedActive "alice" (40 * Second)%Z shared
         (sessionOf "a1" "bob" (30 * Second)%Z)
  /\ (forall x, storedActive "alice" (40 * Second)%Z shared x
                <-> x = sessionOf "a2" "alice" (20 * Second)%Z).
Proof.
  split; [vm_compute; reflexivity|]. split.
  - intros H. apply storedActive_shared_alice in H. discriminate H.
  - exact storedActive_shared_alice.
Qed.

(** C10, on the code. s1 is saved for alice and saved again for bob: [Save]
    replaces the session and adds s1 to the index of bob, and leaves it in
    the index of alice. The active query for alice still returns s1, a
    session whose [UserID] is bob. *)
Theorem C10_reassigned_session_stays_with_old_user :
  byUser reassigned !! "alice" = Some {["s1"]}
  /\ byUser reassigned !! "bob" = Some {["s1"]}
  /\ sessions reassigned !! "s1" = Some (sessionOf "s1" "bob" Second)
  /\ GetActiveByUser "alice" (2 * Second)%Z reassigned
     = ([sessionOf "s1" "bob" Second], None)
  /\ UserID <$> (GetActiveByUser "alice" (2 * Second)%Z reassigned).1
     = ["bob"].
Proof.
  repeat split; vm_compute; reflexivity.
Qed.

End MemorySessionStoreRuns.

(** ** Further properties of the in-memory session store *)

Section MemorySessionStoreMore.
Import store store.MemorySessionStore inmem scenario scenario_store.
Implicit Types (a : list Session) (s : MemorySessionStore.t).
#[local] Set Warnings "-clear-no-such-hyp".

(** X1. The exchange sort of [GetActiveByUser] returns, for every list of
    sessions, a rearrangement of that list in which every session is at
    least as new ([CreatedAt]) as all sessions after it. *)
Theorem sortByCreatedAtDesc_sorts a :
  sortByCreatedAtDesc a ≡ₚ a
  /\ StronglySorted (fun x y => (CreatedAt y <= CreatedAt x)%Z)
       (sortByCreatedAtDesc a).
Proof.
  destruct (sortByCreatedAtDesc_spec a) as (_ & Hp & Hnf).
  split; [done|]. by apply newestFirst_StronglySorted.
Qed.

Lemma GetActiveByUser_in_order_elem_of (order : gset string -> list string)
    (userID : string) (now : Time) s x :
  (forall ids, order ids ≡ₚ elements ids) ->
  x ∈ (GetActiveByUser_in_order order userID now s).1
  <-> exists ids id,
        byUser s !! userID = Some ids /\ id ∈ ids
        /\ sessions s !! id = Some x /\ Before now (ExpiresAt x) = true.
Proof.
  intros Horder.
  destruct (GetActiveByUser_in_order_spec order userID now s) as (_ & _ & Hp).
  destruct (GetActiveByUser_in_order_spec elements userID now s)
    as (_ & _ & Hp').
  rewrite <- GetActiveByUser_elem_of. unfold GetActiveByUser.
  rewrite Hp, Hp'. destruct (byUser s !! userID) as [ids|]; [|done].
  by rewrite (Horder ids).
Qed.

(** X2. On every store state, and in whatever order the range loop visits
    the index, [GetActiveByUser] returns no error and a list, newest first,
    of exactly the sessions that are filed under an ID indexed for the user
    and have [now < ExpiresAt]. *)
Theorem GetActiveByUser_any_order (order : gset string -> list string)
    (userID : string) (now : Time) s :
  (forall ids, order ids ≡ₚ elements ids) ->
  (GetActiveByUser_in_order order userID now s).2 = None
  /\ StronglySorted (fun x y => (CreatedAt y <= CreatedAt x)%Z)
       (GetActiveByUser_in_order order userID now s).1
  /\ (GetActiveByUser_in_order order userID now s).1
     ≡ₚ (GetActiveByUser userID now s).1
  /\ (forall x,
        x ∈ (GetActiveByUser_in_order order userID now s).1
        <-> exists ids id,
              byUser s !! userID = Some ids /\ id ∈ ids
              /\ sessions s !! id = Some x
              /\ Before now (ExpiresAt x) = true).
Proof.
  intros Horder.
  destruct (GetActiveByUser_in_order_spec order userID now s)
    as (Herr & Hnf & Hp).
  destruct (GetActiveByUser_in_order_spec elements userID now s)
    as (_ & _ & Hp').
  split; [done|]. split; [by apply newestFirst_StronglySorted|]. split.
  - unfold GetActiveByUser. rewrite Hp, Hp'.
    destruct (byUser s !! userID) as [ids|]; [|done]. by rewrite (Horder ids).
  - intros x. by apply GetActiveByUser_in_order_elem_of.
Qed.

Lemma reversed_order (ids : gset string) : reversed ids ≡ₚ elements ids.
Proof. unfold reversed. apply reverse_Permutation. Qed.

Lemma GetActiveByUser_any_order_witness :
  (forall ids, reversed ids ≡ₚ elements ids)
  /\ (GetActiveByUser_in_order reversed "alice" (40 * Second)%Z shared).2
     = None
  /\ (GetActiveByUser_in_order reversed "alice" (40 * Second)%Z shared).1
     ≡ₚ (GetActiveByUser "alice" (40 * Second)%Z shared).1.
Proof.
  split; [exact reversed_order|].
  destruct (GetActiveByUser_any_order reversed "alice" (40 * Second)%Z shared
              reversed_order) as (Herr & _ & Hp & _).
  split; [exact Herr | exact Hp].
Defined.

Lemma NoDup_omap_inj {A B} (f : A -> option B) (l : list A) :
  (forall i j x, f i = Some x -> f j = Some x -> i = j) ->
  NoDup l -> NoDup (omap f l).
Proof.
  intros Hinj. induction 1 as [|i l Hi Hl IH]; simpl; [constructor|].
  destruct (f i) as [x|] eqn:Hfi; [|done].
  constructor; [|done].
  intros Hx. apply list_elem_of_omap in Hx as (j & Hj & Hfj).
  by rewrite (Hinj i j x Hfi Hfj) in Hi.
Qed.

Lemma twoSessions_indexed : indexed twoSessions.
Proof.
  change twoSessions with
    (Save (sessionOf "a2" "alice" (20 * Second)%Z)
       (Save (sessionOf "a1" "alice" (10 * Second)%Z)
          NewMemorySessionStore).1).1.
  apply indexed_Save; [apply indexed_Save; [apply indexed_New|]|].
  - intros x Hx. simpl in Hx. by rewrite lookup_empty in Hx.
  - intros x. rewrite Save_sessions. simpl.
    rewrite lookup_insert_ne by done. by rewrite lookup_empty.
Qed.

(** X3. On a store whose index agrees with its sessions, [GetActiveByUser]
    returns each stored session of the user with [now < ExpiresAt] exactly
    once and nothing else; in particular every returned session has the
    [UserID] that was asked for. *)
Theorem GetActiveByUser_exactly_the_users_sessions (userID : string)
    (now : Time) s :
  indexed s ->
  NoDup (GetActiveByUser userID now s).1
  /\ (forall x, x ∈ (GetActiveByUser userID now s).1
                <-> sessions s !! SessionID x = Some x
                    /\ UserID x = userID
                    /\ Before now (ExpiresAt x) = true).
Proof.
  intros Hidx. split.
  - destruct (GetActiveByUser_in_order_spec elements userID now s)
      as (_ & _ & Hp).
    unfold GetActiveByUser. rewrite Hp.
    destruct (byUser s !! userID) as [ids|]; [|constructor].
    apply NoDup_omap_inj; [|apply NoDup_elements].
    intros i j x Hi Hj. unfold activeSession in Hi, Hj.
    destruct (sessions s !! i) as [xi|] eqn:Hsi; [|done].
    destruct (sessions s !! j) as [xj|] eqn:Hsj; [|done].
    destruct (Before now (ExpiresAt xi)); [|done].
    destruct (Before now (ExpiresAt xj)); [|done].
    injection Hi as ->. injection Hj as ->.
    destruct Hidx as [Hfiled _].
    destruct (Hfiled i x Hsi) as [<- _]. by destruct (Hfiled j x Hsj) as [<- _].
  - by destruct (GetActiveByUser_exact userID now s Hidx) as (_ & _ & Hex).
Qed.

Lemma GetActiveByUser_exactly_the_users_sessions_witness :
  indexed twoSessions
  /\ NoDup (GetActiveByUser "alice" (40 * Second)%Z twoSessions).1
  /\ (forall x, x ∈ (GetActiveByUser "alice" (40 * Second)%Z twoSessions).1
                <-> sessions twoSessions !! SessionID x = Some x
                    /\ UserID x = "alice"
                    /\ Before (40 * Second)%Z (ExpiresAt x) = true).
Proof.
  split; [exact twoSessions_indexed|].
  exact (GetActiveByUser_exactly_the_users_sessions "alice" (40 * Second)%Z
           twoSessions twoSessions_indexed).
Defined.

Lemma run_indexed s (ops : list storeops.op) :
  indexed s -> storeops.keepsOwners s ops -> indexed (storeops.run s ops).
Proof.
  unfold storeops.run. revert s.
  induction ops as [|o ops IH]; intros s Hidx Hown; [done|].
  destruct Hown as [Ho Hown]. simpl. apply IH; [|done].
  destruct o as [session|sessionID]; simpl.
  - by apply indexed_Save.
  - by apply indexed_Delete.
Qed.

(** X4. After every sequence of [Save] and [Delete] calls on a new store in
    which no session ID is saved for a second user while a session of
    another user holds it, the index agrees with the sessions and every
    session [GetActiveByUser] returns for a user has that user's [UserID]. *)
Theorem owner_invariant_of_sequences (ops : list storeops.op)
    (userID : string) (now : Time) :
  storeops.keepsOwners NewMemorySessionStore ops ->
  indexed (storeops.run NewMemorySessionStore ops)
  /\ (forall x,
        x ∈ (GetActiveByUser userID now
               (storeops.run NewMemorySessionStore ops)).1 ->
        UserID x = userID).
Proof.
  intros Hown.
  pose proof (run_indexed _ ops indexed_New Hown) as Hidx.
  split; [done|]. intros x Hx.
  destruct (GetActiveByUser_exact userID now _ Hidx) as (_ & _ & Hex).
  by apply Hex in Hx as (_ & Hu & _).
Qed.

Lemma owner_invariant_of_sequences_witness :
  let ops := [storeops.OpSave (sessionOf "a1" "alice" (10 * Second)%Z);
              storeops.OpSave (sessionOf "b1" "bob" (20 * Second)%Z);
              storeops.OpDelete "a1";
              storeops.OpSave (sessionOf "a1" "alice" (30 * Second)%Z)] in
  storeops.keepsOwners NewMemorySessionStore ops
  /\ indexed (storeops.run NewMemorySessionStore ops)
  /\ (forall x,
        x ∈ (GetActiveByUser "alice" (40 * Second)%Z
               (storeops.run NewMemorySessionStore ops)).1 ->
        UserID x = "alice").
Proof.
  intros ops.
  assert (Hown : storeops.keepsOwners NewMemorySessionStore ops).
  { repeat split; intros x Hx; vm_compute in Hx; discriminate Hx. }
  split; [exact Hown|].
  exact (owner_invariant_of_sequences ops "alice" (40 * Second)%Z Hown).
Defined.

Lemma Delete_sessions (sessionID : string) s :
  sessions (Delete sessionID s).1 = delete sessionID (sessions s).
Proof.
  unfold Delete. destruct (sessions s !! sessionID) eqn:Hs; [done|].
  simpl. by rewrite delete_id.
Qed.

(** X5. [Delete] of an ID that is not stored changes nothing and returns no
    error, and a second [Delete] of the same ID is such a call: [Delete] is
    idempotent. *)
Theorem Delete_missing_and_twice (sessionID : string) s :
  (sessions s !! sessionID = None -> Delete sessionID s = (s, None))
  /\ Delete sessionID (Delete sessionID s).1
     = ((Delete sessionID s).1, None).
Proof.
  assert (Hnoop : forall s', sessions s' !! sessionID = None ->
                             Delete sessionID s' = (s', None)).
  { intros s' Hs. unfold Delete. by rewrite Hs. }
  split; [apply Hnoop|]. apply Hnoop.
  rewrite Delete_sessions. apply lookup_delete_eq.
Qed.

(** X6. On a store whose index agrees with its sessions, [Delete] removes
    the session with that ID from the active list of every user and leaves
    all other sessions in it. *)
Theorem Delete_then_GetActiveByUser (sessionID userID : string) (now : Time)
    s x :
  indexed s ->
  x ∈ (GetActiveByUser userID now (Delete sessionID s).1).1
  <-> x ∈ (GetActiveByUser userID now s).1 /\ SessionID x <> sessionID.
Proof.
  intros Hidx.
  destruct (GetActiveByUser_exact userID now _ (indexed_Delete sessionID s Hidx))
    as (_ & _ & Hex').
  destruct (GetActiveByUser_exact userID now s Hidx) as (_ & _ & Hex).
  rewrite Hex', Hex. unfold storedActive.
  rewrite Delete_sessions, lookup_delete_Some. naive_solver.
Qed.

Lemma Delete_then_GetActiveByUser_witness :
  indexed twoSessions
  /\ (forall x,
        x ∈ (GetActiveByUser "alice" (40 * Second)%Z
               (Delete "a1" twoSessions).1).1
        <-> x ∈ (GetActiveByUser "alice" (40 * Second)%Z twoSessions).1
            /\ SessionID x <> "a1").
Proof.
  split; [exact twoSessions_indexed|]. intros x.
  exact (Delete_then_GetActiveByUser "a1" "alice" (40 * Second)%Z twoSessions
           x twoSessions_indexed).
Defined.

(** X7. On a store whose index agrees with its sessions, [Save] of a session
    whose ID is new or already stored for the same user is an upsert: the
    active list of a user then holds the saved session (if it is that
    user's and unexpired) and the earlier sessions with another ID. *)
Theorem Save_then_GetActiveByUser (session : Session) (userID : string)
    (now : Time) s x :
  indexed s ->
  (forall y, sessions s !! SessionID session = Some y ->
             UserID y = UserID session) ->
  x ∈ (GetActiveByUser userID now (Save session s).1).1
  <-> (x = session /\ UserID session = userID
       /\ Before now (ExpiresAt session) = true)
      \/ (x ∈ (GetActiveByUser userID now s).1
          /\ SessionID x <> SessionID session).
Proof.
  intros Hidx Hsame.
  destruct (GetActiveByUser_exact userID now _
              (indexed_Save session s Hidx Hsame)) as (_ & _ & Hex').
  destruct (GetActiveByUser_exact userID now s Hidx) as (_ & _ & Hex).
  rewrite Hex', Hex. unfold storedActive. rewrite Save_sessions.
  destruct (decide (SessionID x = SessionID session)) as [Heq|Hne].
  - rewrite Heq, lookup_insert_eq. naive_solver.
  - rewrite lookup_insert_ne by done. naive_solver.
Qed.

Lemma Save_then_GetActiveByUser_witness :
  indexed twoSessions
  /\ (forall x,
        x ∈ (GetActiveByUser "alice" (40 * Second)%Z
               (Save (sessionOf "a1" "alice" (30 * Second)%Z) twoSessions).1).1
        <-> (x = sessionOf "a1" "alice" (30 * Second)%Z
             /\ UserID (sessionOf "a1" "alice" (30 * Second)%Z) = "alice"
             /\ Before (40 * Second)%Z
                   (ExpiresAt (sessionOf "a1" "alice" (30 * Second)%Z)) = true)
            \/ (x ∈ (GetActiveByUser "alice" (40 * Second)%Z twoSessions).1
                /\ SessionID x
                   <> SessionID (sessionOf "a1" "alice" (30 * Second)%Z))).
Proof.
  split; [exact twoSessions_indexed|]. intros x.
  apply (Save_then_GetActiveByUser (sessionOf "a1" "alice" (30 * Second)%Z)
           "alice" (40 * Second)%Z twoSessions x twoSessions_indexed).
  intros y Hy. vm_compute in Hy. injection Hy as <-. reflexivity.
Defined.

(** X8. Sessions only leave the active list as time passes: on every store
    state, a session returned at a later time is returned at every earlier
    time. *)
Theorem GetActiveByUser_shrinks_with_time (userID : string)
    (now later : Time) s x :
  (now <= later)%Z ->
  x ∈ (GetActiveByUser userID later s).1 ->
  x ∈ (GetActiveByUser userID now s).1.
Proof.
  intros Hle. rewrite !GetActiveByUser_elem_of.
  intros (ids & id & Hu & Hmem & Hx & Hb). exists ids, id.
  repeat split; try done.
  unfold Before in *. apply Z.ltb_lt in Hb. apply Z.ltb_lt. lia.
Qed.

Lemma GetActiveByUser_shrinks_with_time_witness :
  (10 * Second <= 40 * Second)%Z
  /\ sessionOf "a2" "alice" (20 * Second)%Z
     ∈ (GetActiveByUser "alice" (40 * Second)%Z twoSessions).1
  /\ sessionOf "a2" "alice" (20 * Second)%Z
     ∈ (GetActiveByUser "alice" (10 * Second)%Z twoSessions).1.
Proof.
  assert (Hle : (10 * Second <= 40 * Second)%Z) by (vm_compute; discriminate).
  assert (Hx : sessionOf "a2" "alice" (20 * Second)%Z
               ∈ (GetActiveByUser "alice" (40 * Second)%Z twoSessions).1).
  { assert (Hr : (GetActiveByUser "alice" (40 * Second)%Z twoSessions).1
                 = [sessionOf "a2" "alice" (20 * Second)%Z;
                    sessionOf "a1" "alice" (10 * Second)%Z])
      by (vm_compute; reflexivity).
    rewrite Hr. apply list_elem_of_here. }
  split; [exact Hle|]. split; [exact Hx|].
  exact (GetActiveByUser_shrinks_with_time "alice" (10 * Second)%Z
           (40 * Second)%Z twoSessions _ Hle Hx).
Defined.

Lemma omap_ext_elem_of {A B} (f g : A -> option B) (l : list A) :
  (forall i, i ∈ l -> f i = g i) -> omap f l = omap g l.
Proof.
  induction l as [|i l IH]; intros Hfg; [done|]. csimpl.
  rewrite (Hfg i) by apply list_elem_of_here.
  rewrite IH; [done|]. intros j Hj. apply Hfg. by apply list_elem_of_further.
Qed.

Lemma omap_cons_eq {A B} (f : A -> option B) (i : A) (l : list A) :
  omap f (i :: l)
  = match f i with Some y => y :: omap f l | None => omap f l end.
Proof. reflexivity. Qed.

Lemma Save_new_ID_Permutation (session : Session) (now : Time) s :
  SessionID session ∉ default ∅ (byUser s !! UserID session) ->
  (GetActiveByUser (UserID session) now (Save session s).1).1
  ≡ₚ (if Before now (ExpiresAt session) then [session] else [])
     ++ (GetActiveByUser (UserID session) now s).1.
Proof.
  intros Hnew.
  pose proof (Save_sessions session s) as Hsess.
  pose proof (Save_byUser session s) as Hby.
  remember (Save session s).1 as s' eqn:Hs'. clear Hs'.
  destruct (GetActiveByUser_in_order_spec elements (UserID session) now s')
    as (_ & _ & Hp').
  destruct (GetActiveByUser_in_order_spec elements (UserID session) now s)
    as (_ & _ & Hp).
  unfold GetActiveByUser. rewrite Hp', Hp, Hby, lookup_insert_eq.
  rewrite (elements_union_singleton _ _ Hnew), omap_cons_eq.
  assert (Hnewact : activeSession s' now (SessionID session)
                    = if Before now (ExpiresAt session)
                      then Some session else None).
  { unfold activeSession. by rewrite Hsess, lookup_insert_eq. }
  assert (Hold : omap (activeSession s' now)
                   (elements (default ∅ (byUser s !! UserID session)))
                 = omap (activeSession s now)
                     (elements (default ∅ (byUser s !! UserID session)))).
  { apply omap_ext_elem_of. intros i Hi. apply elem_of_elements in Hi.
    unfold activeSession. rewrite Hsess, lookup_insert_ne; [done|].
    by intros <-. }
  rewrite Hnewact, Hold.
  assert (Hrest : omap (activeSession s now)
                    (elements (default ∅ (byUser s !! UserID session)))
                  = match byUser s !! UserID session with
                    | Some sessionIDs =>
                        omap (activeSession s now) (elements sessionIDs)
                    | None => []
                    end).
  { destruct (byUser s !! UserID session); [done|].
    simpl. by rewrite elements_empty. }
  rewrite Hrest. by destruct (Before now (ExpiresAt session)).
Qed.

(** X9. [Save] of a session whose ID the index of its user does not hold
    adds exactly that session to the user's active list when it is
    unexpired, and adds nothing when it is expired: the list after the
    [Save] is a rearrangement of the session put before the list from
    before. *)
Theorem Save_new_ID_adds_one (session : Session) (now : Time) s :
  SessionID session ∉ default ∅ (byUser s !! UserID session) ->
  (GetActiveByUser (UserID session) now (Save session s).1).1
  ≡ₚ (if Before now (ExpiresAt session) then [session] else [])
     ++ (GetActiveByUser (UserID session) now s).1.
Proof. apply Save_new_ID_Permutation. Qed.

Lemma Save_new_ID_adds_one_witness :
  ("a3" ∉ default ∅ (byUser twoSessions !! "alice"))
  /\ (GetActiveByUser "alice" (40 * Second)%Z
        (Save (sessionOf "a3" "alice" (30 * Second)%Z) twoSessions).1).1
     ≡ₚ sessionOf "a3" "alice" (30 * Second)%Z
        :: (GetActiveByUser "alice" (40 * Second)%Z twoSessions).1.
Proof.
  assert (Hnew : "a3" ∉ default ∅ (byUser twoSessions !! "alice")).
  { assert (Hu : byUser twoSessions !! "alice" = Some {["a1"; "a2"]})
      by (vm_compute; reflexivity).
    rewrite Hu. simpl. set_solver. }
  split; [exact Hnew|].
  exact (Save_new_ID_adds_one (sessionOf "a3" "alice" (30 * Second)%Z)
           (40 * Second)%Z twoSessions Hnew).
Defined.

(** X10. For a TTL of at most 9223372036 seconds in absolute value the
    multiplication by [time.Second] does not wrap and a session expires at
    [CreatedAt + TTLSeconds] seconds. At that very instant the session is
    not yet [IsExpired] and is no longer active for [GetActiveByUser];
    before it the session is active and not expired, after it expired and
    not active. *)
Theorem ExpiresAt_without_overflow (x : Session) (now : Time) :
  (-9223372036 <= TTLSeconds x <= 9223372036)%Z ->
  ExpiresAt x = (CreatedAt x + TTLSeconds x * 1000000000)%Z
  /\ (Before now (ExpiresAt x) = true -> IsExpired now x = false)
  /\ (IsExpired now x = true -> Before now (ExpiresAt x) = false)
  /\ (Before now (ExpiresAt x) = false /\ IsExpired now x = false
      <-> now = ExpiresAt x).
Proof.
  intros Httl. unfold IsExpired, Before, After, ExpiresAt, Add, dmul, wrap64,
    Second.
  assert (Hw : ((TTLSeconds x * 1000000000 + 2 ^ 63) mod 2 ^ 64 - 2 ^ 63
                = TTLSeconds x * 1000000000)%Z).
  { rewrite Z.mod_small; lia. }
  rewrite Hw. split; [done|].
  repeat split; rewrite ?Z.ltb_lt, ?Z.ltb_ge; lia.
Qed.

Lemma ExpiresAt_without_overflow_witness :
  (-9223372036 <= TTLSeconds (sessionOf "a1" "alice" (10 * Second)%Z)
   <= 9223372036)%Z
  /\ ExpiresAt (sessionOf "a1" "alice" (10 * Second)%Z)
     = (3610 * Second)%Z.
Proof.
  assert (Httl : (-9223372036
                  <= TTLSeconds (sessionOf "a1" "alice" (10 * Second)%Z)
                  <= 9223372036)%Z) by (simpl; lia).
  split; [exact Httl|].
  exact (proj1 (ExpiresAt_without_overflow
                  (sessionOf "a1" "alice" (10 * Second)%Z) 0%Z Httl)).
Defined.

End MemorySessionStoreMore.

(** ** Further properties of the in-memory invalidation cache *)

Section MemoryCacheMore.
Import store store.MemoryCache inmem scenario cacheops.
Implicit Types (c : MemoryCache.t).
#[local] Set Warnings "-clear-no-such-hyp".

Lemma setAll_entries c (calls : list (string * Duration * Time))
    (sessionID : string) :
  is_Some (entries (setAll c calls) !! sessionID)
  <-> is_Some (entries c !! sessionID) \/ sessionID ∈ calls.*1.*1.
Proof.
  unfold setAll. revert c.
  induction calls as [|[[id ttl] now] calls IH]; intros c; simpl.
  - rewrite elem_of_nil. naive_solver.
  - rewrite IH. simpl. rewrite elem_of_cons.
    destruct (decide (sessionID = id)) as [->|Hne].
    + rewrite lookup_insert_eq. naive_solver.
    + rewrite lookup_insert_ne by done. naive_solver.
Qed.

(** X11. Between two sweeps the cache reports exactly the session IDs that
    were [Set]: after any sequence of [Set] calls on a new cache, [Exists]
    answers [true] for the IDs of the sequence and [false] for every other
    ID, whatever the TTLs and times of the calls, and never an error. *)
Theorem Exists_after_Sets (calls : list (string * Duration * Time))
    (sessionID : string) :
  MemoryCache.Exists sessionID (setAll NewMemoryCache calls)
  = (bool_decide (sessionID ∈ calls.*1.*1), None).
Proof.
  rewrite Exists_entry. f_equal. apply bool_decide_ext.
  rewrite setAll_entries. simpl. rewrite lookup_empty.
  split; [intros [[? [=]]|]; done | by right].
Qed.

Lemma Exists_cleanup_iff (now : Time) c (sessionID : string) :
  MemoryCache.Exists sessionID (cleanup now c) = (true, None)
  <-> exists expiresAt,
        entries c !! sessionID = Some expiresAt /\ (now <= expiresAt)%Z.
Proof.
  rewrite Exists_entry. split.
  - intros [= Hd]. apply bool_decide_eq_true_1 in Hd as [e He].
    apply cleanup_lookup in He as [He Hnot]. exists e. split; [done|].
    unfold After in Hnot. by apply Z.ltb_ge in Hnot.
  - intros (e & He & Hle). rewrite bool_decide_eq_true_2; [done|].
    exists e. apply cleanup_lookup. split; [done|].
    unfold After. by apply Z.ltb_ge.
Qed.

(** X12. A sweep removes exactly the entries whose expiry lies before the
    time of the sweep: after [cleanup] at [now], [Exists] answers [true] for
    an ID if and only if its entry was present with [now <= expiresAt]. A
    second sweep at the same time changes nothing. *)
Theorem cleanup_removes_exactly_expired (now : Time) c (sessionID : string) :
  (MemoryCache.Exists sessionID (cleanup now c) = (true, None)
   <-> exists expiresAt,
         entries c !! sessionID = Some expiresAt /\ (now <= expiresAt)%Z)
  /\ cleanup now (cleanup now c) = cleanup now c.
Proof.
  split; [apply Exists_cleanup_iff|].
  unfold cleanup. simpl. f_equal.
  apply map_eq. intros i. apply option_eq. intros e.
  rewrite !map_lookup_filter_Some. naive_solver.
Qed.

(** X13. The last [Set] of an ID decides its expiry, and an entry set at
    [now] with TTL [ttl] survives a sweep at [sweep] exactly when
    [sweep <= now + ttl]. *)
Theorem Set_then_cleanup (sessionID : string) (ttl ttl0 : Duration)
    (now now0 sweep : Time) c :
  (Set_ sessionID ttl now (Set_ sessionID ttl0 now0 c).1).1
  = (Set_ sessionID ttl now c).1
  /\ MemoryCache.Exists sessionID
       (cleanup sweep (Set_ sessionID ttl now c).1)
     = (bool_decide (sweep <= now + ttl)%Z, None).
Proof.
  split.
  - unfold Set_. simpl. by rewrite insert_insert_eq.
  - destruct (decide (sweep <= now + ttl)%Z) as [Hle|Hgt].
    + rewrite bool_decide_eq_true_2 by done.
      apply Exists_cleanup_iff.
      exists (now + ttl)%Z. split; [|done].
      unfold Set_. simpl. by rewrite lookup_insert_eq.
    + rewrite bool_decide_eq_false_2 by done.
      apply (Exists_after_cleanup sweep _ sessionID (now + ttl)%Z).
      * unfold Set_. simpl. by rewrite lookup_insert_eq.
      * unfold After. apply Z.ltb_lt. lia.
Qed.

End MemoryCacheMore.

(** ** Further properties of the session manager *)

Section ManagerMore.
Import heimdall scenario_manager.
Context {W : Type} {M : Math} {C : Clock W} {D : Drivers W}.

(** X14. A negative [concurrentLimit] means no limit, as zero does:
    [RegisterSession] with any limit [<= 0] is the call with limit 0. *)
Theorem RegisterSession_nonpositive_limit (h : Heimdall W)
    (userID sessionID : string) (device : DeviceInfo)
    (location : LocationInfo) (concurrentLimit : Z) (w : W) :
  (concurrentLimit <= 0)%Z ->
  RegisterSession h userID sessionID device location concurrentLimit w
  = RegisterSession h userID sessionID device location 0 w.
Proof.
  intros Hle. unfold RegisterSession.
  destruct (sessions h) as [st|]; [|done].
  unfold bind, query.
  destruct (store.SessionStore.GetActiveByUser st userID w)
    as [[active [err|]]|msg]; try done.
  assert (Hlt : (0 <? concurrentLimit)%Z = false) by (by apply Z.ltb_ge).
  by rewrite Hlt.
Qed.

(** X15. An error of [store.GetActiveByUser] is surfaced by
    [RegisterSession] and by [ListSessions], wrapped, with no result; the
    world is left as it was, so nothing is saved. *)
Theorem GetActiveByUser_error_surfaces (h : Heimdall W) st
    (userID sessionID : string) (device : DeviceInfo)
    (location : LocationInfo) (concurrentLimit : Z) (w : W)
    (active : list store.Session) (err : error) :
  sessions h = Some st ->
  store.SessionStore.GetActiveByUser st userID w
  = Returns (active, Some err) ->
  RegisterSession h userID sessionID device location concurrentLimit w
  = Returns ((None, Some (fmt_Errorf_w
                            "heimdall: failed to get active sessions: " err)),
             w)
  /\ ListSessions h userID w
     = Returns (([], Some (fmt_Errorf_w
                             "heimdall: failed to list sessions: " err)), w).
Proof.
  intros Hst Hget. unfold RegisterSession, ListSessions.
  rewrite Hst. unfold bind, query. by rewrite Hget.
Qed.

(** X16. A manager without an invalidation cache, which is what [New]
    builds from a configuration that injects a session store and no cache,
    panics with a nil dereference in [IsSessionInvalidated], and in
    [InvalidateSession] once the store delete has succeeded; a failing
    delete is still reported as an error. *)
Theorem no_cache_panics (cfg : Config W) st (sessionID : string) (w : W) :
  SessionStore cfg = Some st ->
  InvalidationCache cfg = None ->
  GeoIPDatabasePath cfg = "" ->
  exists h,
    New cfg w = Returns ((Some h, None), w)
    /\ invalidated h = None
    /\ IsSessionInvalidated h sessionID w = Panics nil_dereference
    /\ InvalidateSession h sessionID w
       = match store.SessionStore.Delete st sessionID w with
         | Returns (None, _) => Panics nil_dereference
         | Returns (Some err, w1) =>
             Returns (Some (fmt_Errorf_w
                              "heimdall: failed to delete session: " err), w1)
         | Panics msg => Panics msg
         end.
Proof.
  intros Hst Hca Hgeo.
  exists {| config := applyDefaults cfg; sessions := Some st;
            invalidated := None; geoip := None |}.
  split.
  - unfold New, bind, ret.
    assert (Hst' : SessionStore (applyDefaults cfg) = Some st).
    { rewrite <- Hst. unfold applyDefaults. by repeat case_match. }
    assert (Hca' : InvalidationCache (applyDefaults cfg) = None).
    { rewrite <- Hca. unfold applyDefaults. by repeat case_match. }
    assert (Hgeo' : GeoIPDatabasePath (applyDefaults cfg) = "").
    { rewrite <- Hgeo. unfold applyDefaults. by repeat case_match. }
    by rewrite Hst', Hca', Hgeo'.
  - split; [done|]. split; [done|].
    unfold InvalidateSession, bind, ret, panic. simpl.
    by destruct (store.SessionStore.Delete st sessionID w)
      as [[[err|] w1]|msg].
Qed.

(** X17. What [RegisterSession] stores and what it returns differ in one
    field: the stored session does not keep [Location.IP], and its public
    form carries the device IP there. So the public form of the stored
    session is the returned session if and only if the location IP equals
    the device IP. Expiry is unaffected by the conversion. *)
Theorem stored_session_public_form (h : Heimdall W)
    (userID sessionID : string) (device : DeviceInfo)
    (location : LocationInfo) (now : Time) :
  storeToSession (newStoreSession h userID sessionID device location now)
  = newSession h userID sessionID device
      (withIP (DeviceInfo_IP device) location) now
  /\ (storeToSession (newStoreSession h userID sessionID device location now)
      = newSession h userID sessionID device location now
      <-> IP location = DeviceInfo_IP device)
  /\ (forall s, public.ExpiresAt (storeToSession s) = store.ExpiresAt s)
  /\ (forall s t, public.IsExpired t (storeToSession s) = store.IsExpired t s).
Proof.
  split; [by destruct device|]. split; [|by split].
  unfold storeToSession, newStoreSession, newSession. simpl. split.
  - intros Heq. apply (f_equal (fun x => IP (Location x))) in Heq.
    simpl in Heq. by symmetry.
  - intros Hip. destruct device, location; simpl in *. by subst.
Qed.

Lemma applyDefaults_DatabasePath (cfg : Config W) :
  DatabasePath (applyDefaults cfg)
  = if String.eqb (DatabasePath cfg) "" then "heimdall.db"
    else DatabasePath cfg.
Proof.
  unfold applyDefaults.
  destruct (SessionTTL cfg <=? 0)%Z; simpl;
    destruct (InvalidationTTL cfg <=? 0)%Z; simpl;
    destruct (Float64.leb (NewLocationThresholdKM cfg) Float64.zero); simpl;
    by destruct (String.eqb (DatabasePath cfg) "").
Qed.

Lemma applyDefaults_untouched (cfg : Config W) :
  SessionStore (applyDefaults cfg) = SessionStore cfg
  /\ InvalidationCache (applyDefaults cfg) = InvalidationCache cfg
  /\ GeoIPDatabasePath (applyDefaults cfg) = GeoIPDatabasePath cfg.
Proof.
  unfold applyDefaults.
  destruct (SessionTTL cfg <=? 0)%Z; simpl;
    destruct (InvalidationTTL cfg <=? 0)%Z; simpl;
    destruct (Float64.leb (NewLocationThresholdKM cfg) Float64.zero); simpl;
    by destruct (String.eqb (DatabasePath cfg) "").
Qed.

Lemma applyDefaults_id (cfg : Config W) :
  (0 < SessionTTL cfg)%Z ->
  (0 < InvalidationTTL cfg)%Z ->
  Float64.leb (NewLocationThresholdKM cfg) Float64.zero = false ->
  DatabasePath cfg <> "" ->
  applyDefaults cfg = cfg.
Proof.
  intros Hs Hi Ht Hd. unfold applyDefaults. cbv zeta.
  apply Z.leb_gt in Hs. apply Z.leb_gt in Hi.
  apply String.eqb_neq in Hd.
  rewrite Hs. cbv iota. rewrite Hi. cbv iota. rewrite Ht. cbv iota.
  by rewrite Hd.
Qed.

(** X18. [applyDefaults] leaves a configuration that needs no defaults:
    both TTLs are positive, the threshold is not [<= 0], the database path
    is not empty, and applying the defaults again changes nothing. The
    injected backends and the GeoIP path are never touched. *)
Theorem applyDefaults_valid_and_idempotent (cfg : Config W) :
  (0 < SessionTTL (applyDefaults cfg))%Z
  /\ (0 < InvalidationTTL (applyDefaults cfg))%Z
  /\ Float64.leb (NewLocationThresholdKM (applyDefaults cfg)) Float64.zero
     = false
  /\ DatabasePath (applyDefaults cfg) <> ""
  /\ SessionStore (applyDefaults cfg) = SessionStore cfg
  /\ InvalidationCache (applyDefaults cfg) = InvalidationCache cfg
  /\ GeoIPDatabasePath (applyDefaults cfg) = GeoIPDatabasePath cfg
  /\ applyDefaults (applyDefaults cfg) = applyDefaults cfg.
Proof.
  assert (Hs : (0 < SessionTTL (applyDefaults cfg))%Z).
  { rewrite applyDefaults_SessionTTL.
    destruct (Z.leb_spec (SessionTTL cfg) 0); [done|lia]. }
  assert (Hi : (0 < InvalidationTTL (applyDefaults cfg))%Z).
  { rewrite applyDefaults_InvalidationTTL.
    destruct (Z.leb_spec (InvalidationTTL cfg) 0); [done|lia]. }
  assert (Ht : Float64.leb (NewLocationThresholdKM (applyDefaults cfg))
                 Float64.zero = false).
  { rewrite applyDefaults_NewLocationThresholdKM.
    by destruct (Float64.leb (NewLocationThresholdKM cfg) Float64.zero)
      eqn:Hle. }
  assert (Hd : DatabasePath (applyDefaults cfg) <> "").
  { rewrite applyDefaults_DatabasePath.
    by destruct (String.eqb_spec (DatabasePath cfg) ""). }
  destruct (applyDefaults_untouched cfg) as (Hst & Hca & Hgeo).
  repeat split; try done. by apply applyDefaults_id.
Qed.

(** X19. With an injected session store and no GeoIP path, [New] does not
    consult the SQLite or GeoIP drivers and leaves the world as it is: for
    every pair of drivers it returns the same manager, holding the defaulted
    configuration, the injected store and the injected cache (or none). *)
Theorem New_with_injected_store (cfg : Config W) st (w : W) :
  SessionStore cfg = Some st ->
  GeoIPDatabasePath cfg = "" ->
  forall D' : Drivers W,
    New (D := D') cfg w
    = Returns ((Some {| config := applyDefaults cfg;
                        sessions := Some st;
                        invalidated := InvalidationCache cfg;
                        geoip := None |}, None), w).
Proof.
  intros Hst Hgeo D'. unfold New, bind, ret.
  destruct (applyDefaults_untouched cfg) as (Hst' & Hca' & Hgeo').
  rewrite Hst', Hst, Hca', Hgeo', Hgeo. simpl.
  by destruct (InvalidationCache cfg).
Qed.

(** X20. Without an injected session store [New] opens the SQLite database
    at the defaulted path; when that fails, [New] returns the wrapped error
    and no manager, in the world the driver left. *)
Theorem New_default_store_failure (cfg : Config W) (w w1 : W) r
    (err : error) :
  SessionStore cfg = None ->
  store_NewSQLite (DatabasePath (applyDefaults cfg)) w
  = Returns ((r, Some err), w1) ->
  New cfg w
  = Returns ((None, Some (fmt_Errorf_w
                            "heimdall: failed to initialize SQLite store: "
                            err)), w1).
Proof.
  intros Hst Hopen. unfold New, bind, ret.
  destruct (applyDefaults_untouched cfg) as (Hst' & _).
  rewrite Hst', Hst, Hopen. by destruct r as [[? ?]|].
Qed.

(** X21. [Close] closes the session store and then the invalidation cache
    even when the store's [Close] returned an error; it returns no error if
    neither did, and otherwise one error that lists theirs in that order. *)
Theorem Close_attempts_every_backend (h : Heimdall W) st ca (w w1 w2 : W)
    (e1 e2 : option error) :
  sessions h = Some st ->
  invalidated h = Some ca ->
  geoip h = None ->
  store.SessionStore.Close st w = Returns (e1, w1) ->
  store.InvalidationCache.Close ca w1 = Returns (e2, w2) ->
  Close h w
  = Returns (match errorsOf e1 ++ errorsOf e2 with
             | [] => None
             | errs => Some (fmt_Errorf_v "heimdall: errors during close: "
                               errs)
             end, w2).
Proof.
  intros Hst Hca Hgeo Hc1 Hc2. unfold Close, bind, ret.
  rewrite Hst, Hca, Hgeo, Hc1, Hc2.
  by destruct e1, e2.
Qed.

(** X22. When the coordinates of either location are unknown (both zero),
    [IsNewLocation] ignores the threshold and the coordinates: it flags
    exactly when the city or the country differ. *)
Theorem IsNewLocation_unknown_coordinates (prev curr : LocationInfo)
    (thresholdKM : float64) :
  known_coordinates prev = false \/ known_coordinates curr = false ->
  (IsNewLocation prev curr thresholdKM = true
   <-> City prev <> City curr \/ Country prev <> Country curr).
Proof.
  intros Hunknown. rewrite (IsNewLocation_unknown prev curr thresholdKM Hunknown).
  rewrite orb_true_iff, !negb_true_iff, !String.eqb_neq. done.
Qed.

End ManagerMore.

(** ** Further runs of the manager on the in-memory backends *)

Section InMemoryManagerMore.
Import store heimdall inmem scenario scenario_manager registrations.
#[local] Set Warnings "-clear-no-such-hyp".

Lemma RegisterSession_nonpositive_limit_witness :
  (-1 <= 0)%Z
  /\ RegisterSession (M := smallAngleMath) (managerOf testConfig)
       "u1" "s3" device nyc (-1) (w2 (managerOf testConfig))
     = RegisterSession (M := smallAngleMath) (managerOf testConfig)
         "u1" "s3" device nyc 0 (w2 (managerOf testConfig)).
Proof.
  split; [lia|].
  apply (RegisterSession_nonpositive_limit (M := smallAngleMath)). lia.
Defined.

Lemma GetActiveByUser_error_surfaces_witness :
  SessionStore.GetActiveByUser (failingStore storageUnavailable) "u1" w0
  = Returns ([], Some storageUnavailable)
  /\ RegisterSession (M := smallAngleMath) brokenStoreManager
       "u1" "s1" device nyc 2 w0
     = Returns ((None, Some (fmt_Errorf_w
                               "heimdall: failed to get active sessions: "
                               storageUnavailable)), w0)
  /\ ListSessions brokenStoreManager "u1" w0
     = Returns (([], Some (fmt_Errorf_w
                             "heimdall: failed to list sessions: "
                             storageUnavailable)), w0).
Proof.
  split; [reflexivity|].
  exact (GetActiveByUser_error_surfaces (M := smallAngleMath)
           brokenStoreManager (failingStore storageUnavailable)
           "u1" "s1" device nyc 2 w0 [] storageUnavailable
           eq_refl eq_refl).
Defined.

Lemma no_cache_panics_witness :
  SessionStore storeOnlyConfig = Some sessionStore
  /\ InvalidationCache storeOnlyConfig = None
  /\ exists h,
       New storeOnlyConfig w0 = Returns ((Some h, None), w0)
       /\ invalidated h = None
       /\ IsSessionInvalidated h "s1" w0 = Panics nil_dereference
       /\ InvalidateSession h "s1" w0
          = match SessionStore.Delete sessionStore "s1" w0 with
            | Returns (None, _) => Panics nil_dereference
            | Returns (Some err, w1) =>
                Returns (Some (fmt_Errorf_w
                                 "heimdall: failed to delete session: " err),
                         w1)
            | Panics msg => Panics msg
            end.
Proof.
  split; [reflexivity|]. split; [reflexivity|].
  exact (no_cache_panics storeOnlyConfig sessionStore "s1" w0
           eq_refl eq_refl eq_refl).
Defined.

Lemma New_with_injected_store_witness :
  SessionStore testConfig = Some sessionStore
  /\ GeoIPDatabasePath testConfig = ""
  /\ New testConfig w0 = Returns ((Some (managerOf testConfig), None), w0).
Proof.
  split; [reflexivity|]. split; [reflexivity|].
  exact (New_with_injected_store testConfig sessionStore w0
           eq_refl eq_refl no_drivers).
Defined.

Lemma New_default_store_failure_witness :
  SessionStore zeroConfig = None
  /\ New zeroConfig w0
     = Returns ((None,
                 Some (fmt_Errorf_w
                         "heimdall: failed to initialize SQLite store: "
                         (errors_New "sqlite: failed to open database"))),
                w0).
Proof.
  split; [reflexivity|].
  exact (New_default_store_failure zeroConfig w0 w0 None
           (errors_New "sqlite: failed to open database")
           eq_refl eq_refl).
Defined.

Lemma Close_attempts_every_backend_witness :
  SessionStore.Close (failingStore storageUnavailable) w0
  = Returns (Some storageUnavailable, w0)
  /\ InvalidationCache.Close invalidationCache w0
     = Returns (None, after (InvalidationCache.Close invalidationCache) w0)
  /\ Close brokenStoreManager w0
     = Returns (Some (fmt_Errorf_v "heimdall: errors during close: "
                        [storageUnavailable]),
                after (InvalidationCache.Close invalidationCache) w0).
Proof.
  split; [reflexivity|]. split; [reflexivity|].
  exact (Close_attempts_every_backend brokenStoreManager
           (failingStore storageUnavailable) invalidationCache
           w0 w0 (after (InvalidationCache.Close invalidationCache) w0)
           (Some storageUnavailable) None
           eq_refl eq_refl eq_refl eq_refl eq_refl).
Defined.

Lemma IsNewLocation_unknown_coordinates_witness :
  known_coordinates paris = false
  /\ (IsNewLocation (M := smallAngleMath) paris nyc (Float64.of_Z 100) = true
      <-> City paris <> City nyc \/ Country paris <> Country nyc).
Proof.
  assert (Hp : known_coordinates paris = false) by reflexivity.
  split; [exact Hp|].
  exact (IsNewLocation_unknown_coordinates (M := smallAngleMath) paris nyc
           (Float64.of_Z 100) (or_introl Hp)).
Defined.

Lemma inmem_Delete (sessionID : string) (w : World) :
  SessionStore.Delete sessionStore sessionID w
  = Returns (None,
             {| the_store :=
                  (MemorySessionStore.Delete sessionID (the_store w)).1;
                the_cache := the_cache w;
                clock := clock w |}).
Proof.
  simpl. unfold on_store, MemorySessionStore.Delete.
  by destruct (MemorySessionStore.sessions (the_store w) !! sessionID).
Qed.

Lemma inmem_ListSessions (h : Heimdall World) (userID : string) (w : World) :
  sessions h = Some sessionStore ->
  ListSessions h userID w
  = Returns ((map storeToSession (activeOf userID w), None), w).
Proof.
  intros Hst. unfold ListSessions, bind, query, ret. rewrite Hst.
  by rewrite inmem_GetActiveByUser.
Qed.

(** X23. On the in-memory backends [InvalidateSession] returns no error in
    every world; afterwards [IsSessionInvalidated] answers true for the ID,
    now and however much time passes (until a sweep of the cache), and,
    when the store's index agrees with its sessions, no [ListSessions] of
    any user, at any later time, holds a session with that ID. The clock is
    not touched. *)
Theorem InvalidateSession_then_queries (cfg : Config World)
    (sessionID : string) (w : World) :
  exists w',
    InvalidateSession (managerOf cfg) sessionID w = Returns (None, w')
    /\ clock w' = clock w
    /\ (forall d,
          IsSessionInvalidated (managerOf cfg) sessionID (elapse d w')
          = Returns ((true, None), elapse d w'))
    /\ (indexed (the_store w) ->
        forall userID d, exists l,
          ListSessions (managerOf cfg) userID (elapse d w')
          = Returns ((l, None), elapse d w')
          /\ forall y, y ∈ l -> SessionID y <> sessionID).
Proof.
  eexists. split.
  { unfold InvalidateSession, managerOf, bind, ret.
    cbn [sessions invalidated config]. rewrite inmem_Delete.
    simpl. reflexivity. }
  split; [done|]. split.
  - intros d. unfold IsSessionInvalidated, managerOf, query.
    cbn [invalidated InvalidationCache.Exists invalidationCache elapse
         the_cache].
    unfold MemoryCache.Exists. cbn [MemoryCache.entries].
    by rewrite lookup_insert_eq.
  - intros Hidx userID d. eexists. split.
    { by apply inmem_ListSessions. }
    intros y Hy. apply list_elem_of_fmap in Hy as (x & -> & Hx).
    unfold activeOf in Hx. simpl in Hx.
    apply (GetActiveByUser_exact userID _ _ (indexed_Delete sessionID _ Hidx))
      in Hx as (Hx & _).
    rewrite Delete_sessions in Hx.
    apply lookup_delete_Some in Hx as [Hne _]. simpl. congruence.
Qed.

(** X24. [ListSessions] on the in-memory store returns no error and leaves
    the world as it is; the sessions come newest first, none of them is
    expired by [Session.IsExpired] at the time of the call, and, when the
    store's index agrees with its sessions, all of them are sessions of the
    asked user. *)
Theorem ListSessions_newest_first_unexpired (cfg : Config World)
    (userID : string) (w : World) :
  exists l,
    ListSessions (managerOf cfg) userID w = Returns ((l, None), w)
    /\ StronglySorted (fun x y => (CreatedAt y <= CreatedAt x)%Z) l
    /\ (forall y, y ∈ l -> public.IsExpired (clock w) y = false)
    /\ (indexed (the_store w) -> forall y, y ∈ l -> UserID y = userID).
Proof.
  eexists. split; [by apply inmem_ListSessions|].
  unfold activeOf.
  destruct (GetActiveByUser_in_order_spec elements userID (clock w)
              (the_store w)) as (_ & Hnf & _).
  split; [|split].
  - apply (StronglySorted_fmap storeToSession
             (fun x y => (store.CreatedAt y <= store.CreatedAt x)%Z)).
    + done.
    + by apply newestFirst_StronglySorted.
  - intros y Hy. apply list_elem_of_fmap in Hy as (x & -> & Hx).
    apply GetActiveByUser_elem_of in Hx as (ids & id & _ & _ & _ & Hb).
    unfold public.IsExpired, public.ExpiresAt, storeToSession. simpl.
    unfold Before, store.ExpiresAt in Hb. unfold After.
    apply Z.ltb_lt in Hb. apply Z.ltb_ge. lia.
  - intros Hidx y Hy. apply list_elem_of_fmap in Hy as (x & -> & Hx).
    apply (GetActiveByUser_exact userID _ _ Hidx) in Hx as (_ & Hu & _).
    done.
Qed.

Lemma newStoreSession_ExpiresAt {M : Math} (h : Heimdall World)
    (userID sessionID : string) (device : DeviceInfo)
    (location : LocationInfo) (now : Time) :
  (0 < Float64.to_int64 (Seconds (SessionTTL (config h))) <= 9223372036)%Z ->
  store.ExpiresAt (newStoreSession h userID sessionID device location now)
  = (now + Float64.to_int64 (Seconds (SessionTTL (config h))) * 1000000000)%Z.
Proof.
  intros Httl. unfold store.ExpiresAt, newStoreSession, Add, dmul, wrap64,
    Second. simpl. rewrite Z.mod_small; lia.
Qed.

Lemma inmem_RegisterSession_accepted {M : Math} (cfg : Config World)
    (userID sessionID : string) (device : DeviceInfo)
    (location : LocationInfo) (concurrentLimit : Z) (w : World) :
  limitReached concurrentLimit (activeOf userID w) = false ->
  RegisterSession (managerOf cfg) userID sessionID device location
    concurrentLimit w
  = Returns
      ((Some (accepted
                (newSession (managerOf cfg) userID sessionID device location
                   (clock w))
                (verdictOn (managerOf cfg) (activeOf userID w) location)
                (activeOf userID w)), None),
       {| the_store :=
            (MemorySessionStore.Save
               (newStoreSession (managerOf cfg) userID sessionID device
                  location (clock w)) (the_store w)).1;
          the_cache := the_cache w;
          clock := clock w |}).
Proof.
  intros Hlim.
  rewrite (RegisterSession_accepted (managerOf cfg) sessionStore userID
             sessionID device location concurrentLimit w (activeOf userID w)
             eq_refl (inmem_GetActiveByUser userID w) Hlim).
  by rewrite inmem_Save.
Qed.

(** X25. An accepted registration of a session ID that is new for the user,
    with a session TTL of at least one second, is what the next
    [ListSessions] shows: the list is the new session, as stored, together
    with the sessions that were active before, and one longer. When the
    location carries the device's IP it is the [ActiveSessions] of the
    result, up to order. *)
Theorem RegisterSession_then_ListSessions {M : Math} (cfg : Config World)
    (userID sessionID : string) (device : DeviceInfo)
    (location : LocationInfo) (concurrentLimit : Z) (w : World) :
  sessionID
  ∉ default ∅ (MemorySessionStore.byUser (the_store w) !! userID) ->
  (0 < Float64.to_int64 (Seconds (SessionTTL (config (managerOf cfg))))
   <= 9223372036)%Z ->
  limitReached concurrentLimit (activeOf userID w) = false ->
  exists r w' l,
    RegisterSession (managerOf cfg) userID sessionID device location
      concurrentLimit w = Returns ((Some r, None), w')
    /\ LimitExceeded r = false
    /\ ListSessions (managerOf cfg) userID w' = Returns ((l, None), w')
    /\ l ≡ₚ storeToSession
              (newStoreSession (managerOf cfg) userID sessionID device
                 location (clock w))
            :: map storeToSession (activeOf userID w)
    /\ length l = S (length (activeOf userID w))
    /\ (IP location = DeviceInfo_IP device -> l ≡ₚ ActiveSessions r).
Proof.
  intros Hnew Httl Hlim.
  do 3 eexists. split; [by apply inmem_RegisterSession_accepted|].
  split; [done|]. split; [by apply inmem_ListSessions|].
  set (x := newStoreSession (managerOf cfg) userID sessionID device location
              (clock w)).
  assert (Hp : map storeToSession
                 (activeOf userID
                    {| the_store := (MemorySessionStore.Save x (the_store w)).1;
                       the_cache := the_cache w;
                       clock := clock w |})
               ≡ₚ storeToSession x :: map storeToSession (activeOf userID w)).
  { unfold activeOf. cbn [the_store clock].
    pose proof (Save_new_ID_Permutation x (clock w) (the_store w) Hnew)
      as Hperm.
    assert (Hb : Before (clock w) (store.ExpiresAt x) = true).
    { unfold x. rewrite newStoreSession_ExpiresAt by done.
      apply Z.ltb_lt. lia. }
    rewrite Hb in Hperm. change (store.UserID x) with userID in Hperm.
    change (map storeToSession ?a) with (storeToSession <$> a).
    by rewrite Hperm. }
  split; [exact Hp|]. split.
  - rewrite Hp. simpl. by rewrite length_map.
  - intros Hip. rewrite Hp. simpl.
    assert (Hx : storeToSession x
                 = newSession (managerOf cfg) userID sessionID device location
                     (clock w)).
    { unfold x, storeToSession, newStoreSession, newSession.
      destruct device, location. simpl in *. by subst. }
    by rewrite Hx.
Qed.

Lemma RegisterSession_then_ListSessions_witness :
  ("s1" ∉ default ∅ (MemorySessionStore.byUser (the_store w0) !! "u1"))
  /\ exists r w' l,
       RegisterSession (M := smallAngleMath) (managerOf testConfig)
         "u1" "s1" device nyc 2 w0 = Returns ((Some r, None), w')
       /\ LimitExceeded r = false
       /\ ListSessions (managerOf testConfig) "u1" w'
          = Returns ((l, None), w')
       /\ l ≡ₚ storeToSession
                 (newStoreSession (managerOf testConfig) "u1" "s1" device
                    nyc (clock w0))
               :: map storeToSession (activeOf "u1" w0)
       /\ length l = S (length (activeOf "u1" w0))
       /\ (IP nyc = DeviceInfo_IP device -> l ≡ₚ ActiveSessions r).
Proof.
  assert (Hnew : "s1" ∉ default ∅
                   (MemorySessionStore.byUser (the_store w0) !! "u1")).
  { vm_compute. set_solver. }
  assert (Httl : (0 < Float64.to_int64
                        (Seconds (SessionTTL (config (managerOf testConfig))))
                  <= 9223372036)%Z).
  { vm_compute. split; [reflexivity|discriminate]. }
  split; [exact Hnew|].
  exact (RegisterSession_then_ListSessions (M := smallAngleMath) testConfig
           "u1" "s1" device nyc 2 w0 Hnew Httl eq_refl).
Defined.

Lemma elapsed_nonneg (calls : list (string * Duration)) :
  Forall (fun call => (0 <= call.2)%Z) calls -> (0 <= elapsed calls)%Z.
Proof.
  induction 1 as [|call calls Hd _ IH]; simpl; [done|lia].
Qed.

Lemma registerAll_under_limit {M : Math} (cfg : Config World)
    (userID : string) (device : DeviceInfo) (location : LocationInfo)
    (concurrentLimit : Z) (horizon : Time)
    (calls : list (string * Duration)) :
  (0 < Float64.to_int64 (Seconds (SessionTTL (config (managerOf cfg))))
   <= 9223372036)%Z ->
  forall (w : World) (k : nat),
  NoDup calls.*1 ->
  Forall (fun call => (0 <= call.2)%Z) calls ->
  (forall id, id ∈ calls.*1 ->
     id ∉ default ∅ (MemorySessionStore.byUser (the_store w) !! userID)) ->
  (forall now, (clock w <= now < horizon)%Z ->
     length (MemorySessionStore.GetActiveByUser userID now (the_store w)).1
     = k) ->
  (horizon
   <= clock w
      + Float64.to_int64 (Seconds (SessionTTL (config (managerOf cfg))))
        * 1000000000)%Z ->
  (clock w + elapsed calls < horizon)%Z ->
  (concurrentLimit <= 0 \/ Z.of_nat (k + length calls) <= concurrentLimit)%Z ->
  Forall wasAccepted
    (registerAll M (managerOf cfg) userID device location concurrentLimit
       calls w).1
  /\ length (registerAll M (managerOf cfg) userID device location
               concurrentLimit calls w).1 = length calls
  /\ clock (registerAll M (managerOf cfg) userID device location
              concurrentLimit calls w).2 = (clock w + elapsed calls)%Z
  /\ (forall now,
        (clock (registerAll M (managerOf cfg) userID device location
                  concurrentLimit calls w).2 <= now < horizon)%Z ->
        length (MemorySessionStore.GetActiveByUser userID now
                  (the_store
                     (registerAll M (managerOf cfg) userID device location
                        concurrentLimit calls w).2)).1
        = k + length calls).
Proof.
  intros Httl.
  induction calls as [|[id d] calls IH]; intros w k Hnd Hds Hnew Hact Hhor
    Hend Hlim.
  - simpl in *. split; [done|]. split; [done|]. split; [lia|].
    intros now Hnow. rewrite Hact by lia. lia.
  - apply NoDup_cons in Hnd as [Hid Hnd].
    apply Forall_cons in Hds as [Hd Hds]. simpl in Hd.
    pose proof (elapsed_nonneg calls Hds) as Hrest.
    change (elapsed ((id, d) :: calls)) with (d + elapsed calls)%Z in *.
    assert (Hk : length (activeOf userID (elapse d w)) = k).
    { unfold activeOf, elapse, Add. cbn [clock the_store].
      apply Hact. lia. }
    assert (Hfree : limitReached concurrentLimit
                      (activeOf userID (elapse d w)) = false).
    { unfold limitReached. rewrite Hk.
      apply andb_false_iff. rewrite Z.ltb_ge, Z.leb_gt.
      simpl in Hlim. lia. }
    cbn [registerAll].
    rewrite (inmem_RegisterSession_accepted cfg userID id device location
               concurrentLimit (elapse d w) Hfree).
    set (x := newStoreSession (managerOf cfg) userID id device location
                (clock (elapse d w))).
    set (w1 := {| the_store :=
                    (MemorySessionStore.Save x (the_store (elapse d w))).1;
                  the_cache := the_cache (elapse d w);
                  clock := clock (elapse d w) |}).
    assert (Hc1 : clock w1 = (clock w + d)%Z) by done.
    assert (Hidnew : id ∉ default ∅
              (MemorySessionStore.byUser (the_store w) !! userID)).
    { apply Hnew. simpl. apply elem_of_cons. by left. }
    destruct (IH w1 (S k)) as (Hacc & Hlen & Hclk & Hact').
    + done.
    + done.
    + intros id' Hid'. unfold w1. cbn [the_store elapse].
      rewrite Save_byUser. change (store.UserID x) with userID.
      change (store.SessionID x) with id.
      rewrite lookup_insert_eq. simpl.
      assert (id' <> id) by (intros ->; done).
      assert (id' ∉ default ∅
                (MemorySessionStore.byUser (the_store w) !! userID)).
      { apply Hnew. simpl. apply elem_of_cons. by right. }
      set_solver.
    + intros now Hnow. unfold w1. cbn [the_store elapse].
      pose proof (Save_new_ID_Permutation x now (the_store w) Hidnew)
        as Hperm.
      change (store.UserID x) with userID in Hperm.
      assert (Hb : Before now (store.ExpiresAt x) = true).
      { unfold x. rewrite newStoreSession_ExpiresAt by done.
        apply Z.ltb_lt. unfold elapse, Add. cbn [clock]. lia. }
      rewrite Hb in Hperm. rewrite Hperm. simpl. f_equal.
      apply Hact. lia.
    + lia.
    + lia.
    + simpl in Hlim. lia.
    + destruct (registerAll M (managerOf cfg) userID device location
                  concurrentLimit calls w1) as [rs w2].
      simpl in *. split.
      { constructor; [|done]. eexists. split; [done|]. split; [done|].
        by eexists. }
      split; [by rewrite Hlen|]. split; [lia|].
      intros now Hnow. rewrite Hact' by lia. lia.
Qed.

(** X26. A user without sessions registers [n] distinct session IDs under
    a concurrent limit of at least [n], all within the session TTL: every
    registration is accepted, and the user then holds [n] active sessions.
    When [n] equals the limit, any further registration within the TTL is
    rejected with [LimitExceeded], no session, and the [n] active sessions;
    the store is left as it is. *)
Theorem registrations_up_to_the_limit {M : Math} (cfg : Config World)
    (userID : string) (device : DeviceInfo) (location : LocationInfo)
    (concurrentLimit : Z) (calls : list (string * Duration)) (w : World) :
  let h := managerOf cfg in
  let ttl := Float64.to_int64 (Seconds (SessionTTL (config h))) in
  let run := registerAll M h userID device location concurrentLimit calls w in
  (0 < ttl <= 9223372036)%Z ->
  MemorySessionStore.byUser (the_store w) !! userID = None ->
  NoDup calls.*1 ->
  Forall (fun call => (0 <= call.2)%Z) calls ->
  (elapsed calls < ttl * 1000000000)%Z ->
  (0 < concurrentLimit)%Z ->
  (Z.of_nat (length calls) <= concurrentLimit)%Z ->
  Forall wasAccepted run.1
  /\ length run.1 = length calls
  /\ length (activeOf userID run.2) = length calls
  /\ (Z.of_nat (length calls) = concurrentLimit ->
      forall sessionID device' location' d,
        (0 <= d)%Z ->
        (elapsed calls + d < ttl * 1000000000)%Z ->
        exists r,
          RegisterSession h userID sessionID device' location'
            concurrentLimit (elapse d run.2)
          = Returns ((Some r, None), elapse d run.2)
          /\ LimitExceeded r = true
          /\ Session_ r = None
          /\ length (ActiveSessions r) = length calls).
Proof.
  intros h ttl run Httl Hfresh Hnd Hds Hwithin Hpos Hlen.
  destruct (registerAll_under_limit cfg userID device location
              concurrentLimit (clock w + ttl * 1000000000)%Z calls Httl w 0)
    as (Hacc & Hl & Hclk & Hact).
  - done.
  - done.
  - intros id _. rewrite Hfresh. simpl. set_solver.
  - intros now _. by rewrite GetActiveByUser_unknown_user.
  - fold h. fold ttl. lia.
  - lia.
  - right. simpl. lia.
  - fold h in Hacc, Hl, Hclk, Hact. fold run in Hacc, Hl, Hclk, Hact.
    pose proof (elapsed_nonneg calls Hds) as Hnn.
    split; [done|]. split; [done|]. split.
    { unfold activeOf. rewrite Hact by lia. done. }
    intros Hfull sessionID device' location' d Hd Hd'.
    assert (Hk : length (activeOf userID (elapse d run.2)) = length calls).
    { unfold activeOf, elapse, Add. cbn [clock the_store].
      rewrite Hact by lia. done. }
    exists (rejected (activeOf userID (elapse d run.2))). split.
    + apply (RegisterSession_rejected h sessionStore); [done| |].
      * apply inmem_GetActiveByUser.
      * unfold limitReached. rewrite Hk.
        apply andb_true_iff. rewrite Z.ltb_lt, Z.leb_le. lia.
    + split; [done|]. split; [done|].
      simpl. by rewrite length_map.
Qed.

Lemma registrations_up_to_the_limit_witness :
  NoDup twoLogins.*1
  /\ (elapsed twoLogins < 3600 * 1000000000)%Z
  /\ Forall wasAccepted
       (registerAll smallAngleMath (managerOf testConfig) "u1" device nyc 2
          twoLogins w0).1
  /\ length (activeOf "u1"
               (registerAll smallAngleMath (managerOf testConfig) "u1" device
                  nyc 2 twoLogins w0).2)
     = length twoLogins.
Proof.
  assert (Httl : (0 < Float64.to_int64
                        (Seconds (SessionTTL (config (managerOf testConfig))))
                  <= 9223372036)%Z).
  { vm_compute. split; [reflexivity|discriminate]. }
  assert (Hnd : NoDup twoLogins.*1).
  { apply (bool_decide_unpack _). vm_compute. exact I. }
  assert (Hds : Forall (fun call => (0 <= call.2)%Z) twoLogins).
  { repeat constructor; simpl; discriminate. }
  assert (Hwithin : (elapsed twoLogins < 3600 * 1000000000)%Z).
  { vm_compute. reflexivity. }
  assert (Hwithin' :
            (elapsed twoLogins
             < Float64.to_int64
                 (Seconds (SessionTTL (config (managerOf testConfig))))
               * 1000000000)%Z).
  { vm_compute. reflexivity. }
  assert (Hpos : (0 < 2)%Z) by reflexivity.
  assert (Hlen : (Z.of_nat (length twoLogins) <= 2)%Z).
  { vm_compute. discriminate. }
  split; [exact Hnd|]. split; [exact Hwithin|].
  pose proof (registrations_up_to_the_limit (M := smallAngleMath) testConfig
                "u1" device nyc 2 twoLogins w0 Httl eq_refl Hnd Hds Hwithin'
                Hpos Hlen) as (Hacc & _ & Hact & _).
  split; [exact Hacc|exact Hact].
Defined.

End InMemoryManagerMore.
